(** * The authenticated API client of the frontend (src/frontend/src/lib/api.ts)

    A shallow embedding of the request and response interceptors that
    [ApiClient] registers on its HTTP client, of the module-level flag
    [isHandlingUnauthorized] that deduplicates concurrent 401 handlers, and
    of the resource methods built on top of the client.

    The two interceptors are [async] functions.  Each one is embedded as the
    sequence of its synchronous segments: a segment runs to completion on the
    single JavaScript thread, and the function is suspended at its [await]
    until the awaited promise settles.  The event loop is a step function on
    a [World]; which promise settles next, when the clock advances and when a
    due timer fires is chosen by the environment through a list of
    [Event]s. *)

From Stdlib Require Import ZArith Ascii String List Bool Lia.
From stdpp Require Import base option list strings gmap.

Local Open Scope string_scope.

(** ** Values *)

(** [response.status] and the part of the body the client returns. *)
Record Response := mkResponse {
  status : Z;
  data : string;
}.

(** What a promise of the client rejects with.  An error raised by the
    transport for a response outside the accepted range carries that
    response; a network failure, or a failure of the session provider,
    carries none. *)
Record JsError := mkError {
  response : option Response;
  message : string;
}.

(** The settled state of a promise. *)
Inductive Settled (A : Type) : Type :=
| Fulfilled (value : A)
| Rejected (reason : JsError).
Arguments Fulfilled {A} value.
Arguments Rejected {A} reason.

(** [session] of [supabase.auth.getSession()]: the only field read is
    [access_token]. *)
Record Session := mkSession {
  access_token : string;
}.

(** The value [getSession()] resolves to: [{ data: { session } }] where
    [session] may be [null]. *)
Record SessionResult := mkSessionResult {
  data_session : option Session;
}.

(** The request descriptor handed through the interceptor chain. *)
Record RequestConfig := mkConfig {
  method : string;
  url : string;
  headers : gmap string string;
  body : option string;
}.

(** ** Module-level constants (lines 9-21) *)

Definition PUBLIC_PATHS : list string :=
  [ "/login"; "/signup"; "/forgot-password"; "/reset-password" ].

(** Delay passed to [setTimeout] on line 130, in milliseconds. *)
Definition RESET_DELAY : nat := 1000.

(** ** String primitives of the host language *)

(** [s.startsWith(p)]. *)
Definition startsWith (s p : string) : bool := String.prefix p s.

(** [s || d] on strings: the empty string is falsy. *)
Definition or_else (s d : string) : string :=
  match s with
  | EmptyString => d
  | _ => s
  end.

(** Characters that [encodeURIComponent] leaves alone:
    [A-Z a-z 0-9 - _ . ! ~ * ' ( )]. *)
Definition is_unreserved (c : ascii) : bool :=
  let n := nat_of_ascii c in
  ((65 <=? n)%nat && (n <=? 90)%nat)
  || ((97 <=? n)%nat && (n <=? 122)%nat)
  || ((48 <=? n)%nat && (n <=? 57)%nat)
  || existsb (Ascii.eqb c)
       [ "-"; "_"; "."; "!"; "~"; "*"; "'"; "("; ")" ]%char.

Definition hex_digit (n : nat) : ascii :=
  match n with
  | O => "0" | 1 => "1" | 2 => "2" | 3 => "3" | 4 => "4"
  | 5 => "5" | 6 => "6" | 7 => "7" | 8 => "8" | 9 => "9"
  | 10 => "A" | 11 => "B" | 12 => "C" | 13 => "D" | 14 => "E"
  | _ => "F"
  end%char.

Definition percent_escape (c : ascii) : string :=
  let n := nat_of_ascii c in
  String "%" (String (hex_digit (n / 16)) (String (hex_digit (n mod 16)) "")).

(** [encodeURIComponent(s)].  A string is the sequence of the bytes of its
    UTF-8 encoding, which is what the function escapes; the components of
    [window.location] are serialised URLs and hold ASCII only. *)
Fixpoint encodeURIComponent (s : string) : string :=
  match s with
  | EmptyString => EmptyString
  | String c rest =>
      (if is_unreserved c then String c "" else percent_escape c)
        +:+ encodeURIComponent rest
  end.

(** [PUBLIC_PATHS.some((p) => pathname.startsWith(p))] (line 104). *)
Definition on_public_path (pathname : string) : bool :=
  existsb (fun p => startsWith pathname p) PUBLIC_PATHS.

(** [error.response?.status === 401] (line 99). *)
Definition is_unauthorized (error : JsError) : bool :=
  match response error with
  | Some r => (status r =? 401)%Z
  | None => false
  end.

(** ** The world the interceptors run in *)

(** Where an invocation of the client stands.  An [async] function that is
    suspended keeps its local variables: the request descriptor for the
    request interceptor, [error] and [pathname] for the response
    interceptor. *)
Inductive Task :=
| AwaitGetSession (config : RequestConfig)
    (** suspended at [await supabase.auth.getSession()] (line 82) *)
| AwaitTransport (config : RequestConfig)
    (** handed to the transport, waiting for the response *)
| AwaitSignOut (error : JsError) (pathname : string)
    (** suspended at [await supabase.auth.signOut()] (line 112) *)
| Done (outcome : Settled Response).
    (** the promise returned to the caller has settled *)

Record World := mkWorld {
  isHandlingUnauthorized : bool;      (** the module-level flag (line 9) *)
  location_pathname : string;         (** [window.location.pathname] *)
  location_search : string;           (** [window.location.search] *)
  clock : nat;                        (** milliseconds *)
  timers : list nat;                  (** due times of the pending reset callbacks *)
  signOutCalls : nat;                 (** calls of [supabase.auth.signOut] so far *)
  hrefAssignments : list string;      (** values assigned to [window.location.href], latest first *)
  consoleErrors : list JsError;       (** second arguments of [console.error], latest first *)
  transmitted : list (nat * RequestConfig);  (** requests handed to the transport, by task *)
  tasks : list Task;
}.

(** The module has just been loaded at the given location. *)
Definition initial (pathname search : string) : World :=
  mkWorld false pathname search 0 [] 0 [] [] [] [].

(** A synchronous segment: it reads and writes the world and returns. *)
Definition Sync (A : Type) : Type := World -> A * World.

#[export] Instance Sync_ret : MRet Sync := fun A a w => (a, w).
#[export] Instance Sync_bind : MBind Sync :=
  fun A B f m w => let (a, w') := m w in f a w'.

Definition read {A} (f : World -> A) : Sync A := fun w => (f w, w).

Definition set_isHandlingUnauthorized (b : bool) : Sync unit := fun w =>
  (tt, mkWorld b (location_pathname w) (location_search w) (clock w)
         (timers w) (signOutCalls w) (hrefAssignments w) (consoleErrors w)
         (transmitted w) (tasks w)).

(** [supabase.auth.signOut()]: the call is made; its promise settles later. *)
Definition supabase_auth_signOut : Sync unit := fun w =>
  (tt, mkWorld (isHandlingUnauthorized w) (location_pathname w)
         (location_search w) (clock w) (timers w) (S (signOutCalls w))
         (hrefAssignments w) (consoleErrors w) (transmitted w) (tasks w)).

(** [window.location.href = target].  The assignment is recorded; the page
    load it starts is the environment's business ([Navigated]), and the
    module keeps running until then. *)
Definition set_window_location_href (target : string) : Sync unit := fun w =>
  (tt, mkWorld (isHandlingUnauthorized w) (location_pathname w)
         (location_search w) (clock w) (timers w) (signOutCalls w)
         (target :: hrefAssignments w) (consoleErrors w) (transmitted w)
         (tasks w)).

(** [console.error('Error signing out on 401 handler', e)]. *)
Definition console_error (e : JsError) : Sync unit := fun w =>
  (tt, mkWorld (isHandlingUnauthorized w) (location_pathname w)
         (location_search w) (clock w) (timers w) (signOutCalls w)
         (hrefAssignments w) (e :: consoleErrors w) (transmitted w)
         (tasks w)).

(** [setTimeout(() => { isHandlingUnauthorized = false; }, delay)]: the only
    callback the module ever schedules, due [delay] after the call. *)
Definition setTimeout_reset (delay : nat) : Sync unit := fun w =>
  (tt, mkWorld (isHandlingUnauthorized w) (location_pathname w)
         (location_search w) (clock w) (timers w ++ [clock w + delay])
         (signOutCalls w) (hrefAssignments w) (consoleErrors w)
         (transmitted w) (tasks w)).

(** ** The request interceptor (lines 78-93) *)

(** Lines 84-88, run when [getSession()] has resolved to [result]:
    [session?.access_token] is truthy for a session with a non-empty token. *)
Definition request_fulfilled (config : RequestConfig) (result : SessionResult)
  : RequestConfig :=
  match data_session result with
  | Some session =>
      match access_token session with
      | EmptyString => config
      | token =>
          mkConfig (method config) (url config)
            (<["Authorization" := "Bearer " +:+ token]> (headers config))
            (body config)
      end
  | None => config
  end.

(** Lines 90-92: [(error) => Promise.reject(error)].  It is called for a
    rejection that reaches the request interceptor from an earlier stage of
    the chain; this client registers none, so no event of the loop calls
    it. *)
Definition request_rejected {A} (error : JsError) : Settled A :=
  Rejected error.

(** ** The response interceptor (lines 96-135) *)

(** Line 97: [(response) => response]. *)
Definition response_fulfilled (r : Response) : Response := r.

(** How far a call of the error handler got in its first segment. *)
Inductive Suspended :=
| Returned (outcome : Settled Response)
| AtSignOut (pathname : string).

(** Lines 98-112 and 133: from the call of the handler to its first
    suspension or to its return. *)
Definition response_rejected (error : JsError) : Sync Suspended :=
  if is_unauthorized error then
    current ← read location_pathname;
    let pathname := or_else current "/" in
    if on_public_path pathname then
      mret (Returned (Rejected error))
    else
      handling ← read isHandlingUnauthorized;
      if negb handling then
        set_isHandlingUnauthorized true;;
        supabase_auth_signOut;;
        mret (AtSignOut pathname)
      else
        mret (Returned (Rejected error))
  else
    mret (Returned (Rejected error)).

(** Lines 113-133: the rest of the handler, run when the promise of
    [signOut()] has settled with [signedOut]. *)
Definition response_rejected_resume (error : JsError) (pathname : string)
    (signedOut : Settled unit) : Sync (Settled Response) :=
  match signedOut with
  | Fulfilled _ => mret tt
  | Rejected e => console_error e
  end;;
  search ← read location_search;
  let returnUrl := encodeURIComponent (pathname +:+ search) in
  set_window_location_href ("/login?returnUrl=" +:+ returnUrl);;
  setTimeout_reset RESET_DELAY;;
  mret (Rejected error).

(** ** The event loop *)

(** What the environment does next.  Every event runs one synchronous
    segment of the module, or changes what the module will read. *)
Inductive Event :=
| Call (config : RequestConfig)
    (** a method of the client issues a request: a new task starts in the
        request interceptor and is suspended at [getSession()] *)
| SessionSettled (i : nat) (result : Settled SessionResult)
    (** the promise of [getSession()] awaited by task [i] settles *)
| TransportSettled (i : nat) (result : Settled Response)
    (** the transport answers the request of task [i] *)
| SignOutSettled (i : nat) (result : Settled unit)
    (** the promise of [signOut()] awaited by task [i] settles *)
| TimerFired (k : nat)
    (** the [k]-th pending timer, which is due, runs its callback *)
| Tick (ms : nat)
    (** time passes *)
| Navigated (pathname search : string).
    (** the application or the user changes [window.location] *)

Definition set_task (i : nat) (t : Task) (w : World) : World :=
  mkWorld (isHandlingUnauthorized w) (location_pathname w) (location_search w)
    (clock w) (timers w) (signOutCalls w) (hrefAssignments w)
    (consoleErrors w) (transmitted w) (<[i := t]> (tasks w)).

Definition spawn (t : Task) (w : World) : World :=
  mkWorld (isHandlingUnauthorized w) (location_pathname w) (location_search w)
    (clock w) (timers w) (signOutCalls w) (hrefAssignments w)
    (consoleErrors w) (transmitted w) (tasks w ++ [t]).

(** The request of task [i] leaves the interceptor and is sent. *)
Definition transmit (i : nat) (config : RequestConfig) (w : World) : World :=
  mkWorld (isHandlingUnauthorized w) (location_pathname w) (location_search w)
    (clock w) (timers w) (signOutCalls w) (hrefAssignments w)
    (consoleErrors w) ((i, config) :: transmitted w)
    (<[i := AwaitTransport config]> (tasks w)).

(** The callback of line 129 runs and its timer is gone. *)
Definition fire (k : nat) (w : World) : World :=
  mkWorld false (location_pathname w) (location_search w)
    (clock w) (delete k (timers w)) (signOutCalls w) (hrefAssignments w)
    (consoleErrors w) (transmitted w) (tasks w).

Definition advance (ms : nat) (w : World) : World :=
  mkWorld (isHandlingUnauthorized w) (location_pathname w) (location_search w)
    (clock w + ms) (timers w) (signOutCalls w) (hrefAssignments w)
    (consoleErrors w) (transmitted w) (tasks w).

Definition navigate (pathname search : string) (w : World) : World :=
  mkWorld (isHandlingUnauthorized w) pathname search
    (clock w) (timers w) (signOutCalls w) (hrefAssignments w)
    (consoleErrors w) (transmitted w) (tasks w).

(** The error handler of the response interceptor is called for task [i]. *)
Definition enter_response_rejected (i : nat) (error : JsError) (w : World)
  : World :=
  let (s, w') := response_rejected error w in
  match s with
  | Returned outcome => set_task i (Done outcome) w'
  | AtSignOut pathname => set_task i (AwaitSignOut error pathname) w'
  end.

(** One turn of the event loop; [None] when the event cannot happen in [w].

    The HTTP client runs its interceptors as one promise chain: request
    handlers, the transport, response handlers.  A rejection in the request
    interceptor therefore skips the transport and reaches the error handler
    of the response interceptor, like a rejection of the transport. *)
Definition step (ev : Event) (w : World) : option World :=
  match ev with
  | Call config => Some (spawn (AwaitGetSession config) w)
  | SessionSettled i result =>
      match tasks w !! i with
      | Some (AwaitGetSession config) =>
          match result with
          | Fulfilled r => Some (transmit i (request_fulfilled config r) w)
          | Rejected e => Some (enter_response_rejected i e w)
          end
      | _ => None
      end
  | TransportSettled i result =>
      match tasks w !! i with
      | Some (AwaitTransport _) =>
          match result with
          | Fulfilled r =>
              Some (set_task i (Done (Fulfilled (response_fulfilled r))) w)
          | Rejected e => Some (enter_response_rejected i e w)
          end
      | _ => None
      end
  | SignOutSettled i result =>
      match tasks w !! i with
      | Some (AwaitSignOut error pathname) =>
          let (outcome, w') :=
            response_rejected_resume error pathname result w in
          Some (set_task i (Done outcome) w')
      | _ => None
      end
  | TimerFired k =>
      match timers w !! k with
      | Some due => if (due <=? clock w)%nat then Some (fire k w) else None
      | None => None
      end
  | Tick ms => Some (advance ms w)
  | Navigated pathname search => Some (navigate pathname search w)
  end.

Fixpoint run (evs : list Event) (w : World) : option World :=
  match evs with
  | [] => Some w
  | ev :: rest =>
      match step ev w with
      | Some w' => run rest w'
      | None => None
      end
  end.

(** ** Observations on a world *)

Definition awaits_signOut (t : Task) : bool :=
  match t with
  | AwaitSignOut _ _ => true
  | _ => false
  end.

Definition is_done (t : Task) : bool :=
  match t with
  | Done _ => true
  | _ => false
  end.

(** Number of handlers suspended at [signOut()]. *)
Definition signingOut (w : World) : nat :=
  length (List.filter awaits_signOut (tasks w)).

(** The flag is set exactly while one recovery is under way: its handler is
    suspended at [signOut()], or its reset timer is pending. *)
Definition consistent (w : World) : Prop :=
  signingOut w + length (timers w)
  = if isHandlingUnauthorized w then 1 else 0.

(** The error handler, called in [w] with [error], takes the branch of
    line 109: the status is 401, the path is not public, the flag is clear. *)
Definition starts_recovery (error : JsError) (w : World) : bool :=
  is_unauthorized error
  && negb (on_public_path (or_else (location_pathname w) "/"))
  && negb (isHandlingUnauthorized w).

(** The world after lines 110 and 112: flag set, [signOut()] called. *)
Definition recovering (w : World) : World :=
  mkWorld true (location_pathname w) (location_search w) (clock w)
    (timers w) (S (signOutCalls w)) (hrefAssignments w) (consoleErrors w)
    (transmitted w) (tasks w).

(** A call of the error handler of the response interceptor: the error it
    is given, the path it reads on line 100, and when. *)
Record HandlerCall := mkCall {
  call_error : JsError;
  call_pathname : string;
  call_time : nat;
}.

Definition calls_handler (ev : Event) (w : World) : option HandlerCall :=
  match ev with
  | SessionSettled i (Rejected e) =>
      match tasks w !! i with
      | Some (AwaitGetSession _) =>
          Some (mkCall e (or_else (location_pathname w) "/") (clock w))
      | _ => None
      end
  | TransportSettled i (Rejected e) =>
      match tasks w !! i with
      | Some (AwaitTransport _) =>
          Some (mkCall e (or_else (location_pathname w) "/") (clock w))
      | _ => None
      end
  | _ => None
  end.

(** The handler calls made during a run, in order. *)
Fixpoint handler_calls (evs : list Event) (w : World) : list HandlerCall :=
  match evs with
  | [] => []
  | ev :: rest =>
      match step ev w with
      | Some w' =>
          match calls_handler ev w with
          | Some c => c :: handler_calls rest w'
          | None => handler_calls rest w'
          end
      | None => []
      end
  end.

Definition is_SignOutSettled (ev : Event) : bool :=
  match ev with
  | SignOutSettled _ _ => true
  | _ => false
  end.

(** ** The resource methods (lines 141-217) *)

(** The descriptor the client builds for a call: the defaults given to
    [axios.create] on lines 70-75, with the method, path and body of the
    call. *)
Definition client_request (m u : string) (b : option string) : RequestConfig :=
  mkConfig m u {[ "Content-Type" := "application/json" ]} b.

(** ** Phases of a burst of failures *)

Section Burst.

(** The sign-out count and the number of redirects before the burst, and
    the time of its first handler call. *)
Variables (s0 h0 t0 : nat).

(** No handler has been called yet. *)
Definition quiet (w : World) : Prop :=
  isHandlingUnauthorized w = false
  /\ signingOut w = 0 /\ timers w = []
  /\ signOutCalls w = s0 /\ length (hrefAssignments w) = h0.

(** One recovery has been started at [t0] and no other. *)
Definition recovered_once (w : World) : Prop :=
  signOutCalls w = S s0 /\ t0 <= clock w
  /\ ((isHandlingUnauthorized w = true /\ signingOut w = 1
       /\ timers w = [] /\ length (hrefAssignments w) = h0)
      \/ (isHandlingUnauthorized w = true /\ signingOut w = 0
          /\ (exists due, timers w = [due] /\ t0 + RESET_DELAY <= due)
          /\ length (hrefAssignments w) = S h0)
      \/ (isHandlingUnauthorized w = false /\ signingOut w = 0
          /\ timers w = [] /\ t0 + RESET_DELAY <= clock w
          /\ length (hrefAssignments w) = S h0)).

(** A handler call of the burst: unauthorized, off the public paths, and
    less than the reset delay after the first. *)
Definition in_burst (c : HandlerCall) : Prop :=
  is_unauthorized (call_error c) = true
  /\ on_public_path (call_pathname c) = false
  /\ call_time c < t0 + RESET_DELAY.

End Burst.

(** The task whose awaited promise the event settles, if any. *)
Definition addressee (ev : Event) : option nat :=
  match ev with
  | SessionSettled i _ | TransportSettled i _ | SignOutSettled i _ => Some i
  | _ => None
  end.

(** ** Scenarios *)

(** The world a run ends in; the starting world when the run is impossible. *)
Definition after (evs : list Event) (w : World) : World :=
  default w (run evs w).

(** The error the transport raises for a response with status 401. *)
Definition error401 : JsError :=
  mkError (Some (mkResponse 401 "")) "Request failed with status code 401".

(** A failed sign-out. *)
Definition signOutError : JsError := mkError None "Failed to fetch".

Definition session_of (token : string) : Settled SessionResult :=
  Fulfilled (mkSessionResult (Some (mkSession token))).

(** One request is sent with a credential and answered with 401. *)
Definition one_failure : list Event :=
  [ Call (client_request "get" "/widgets/42" None);
    SessionSettled 0 (session_of "tok");
    TransportSettled 0 (Rejected error401) ].

(** Three requests are answered with 401 in the same instant, in another
    order than they were issued; the sign-out of the first handler settles
    last. *)
Definition three_failures : list Event :=
  [ Call (client_request "get" "/v1/integrations/" None);
    Call (client_request "get" "/v1/integrations/status/github" None);
    Call (client_request "get" "/v1/health" None);
    SessionSettled 1 (session_of "tok");
    SessionSettled 0 (session_of "tok");
    SessionSettled 2 (session_of "tok");
    TransportSettled 2 (Rejected error401);
    TransportSettled 0 (Rejected error401);
    TransportSettled 1 (Rejected error401);
    Tick 150;
    SignOutSettled 2 (Fulfilled tt) ].

(** The sign-out of [one_failure] is still pending a long time later. *)
Definition stuck_signOut : list Event :=
  one_failure ++ [ Tick 1000; Tick 4000 ].

Definition not_SignOutSettled (ev : Event) : bool :=
  negb (is_SignOutSettled ev).

(** The reset timer is pending with the given due time and no handler is
    suspended at [signOut()]. *)
Definition cooling (due : nat) (w : World) : Prop :=
  isHandlingUnauthorized w = true /\ timers w = [due] /\ signingOut w = 0.

Definition awaits_session (t : Task) : bool :=
  match t with
  | AwaitGetSession _ => true
  | _ => false
  end.

(** Every request handed to the transport belongs to a task that has left
    the request interceptor. *)
Definition sent_left_interceptor (w : World) : Prop :=
  forall i c, In (i, c) (transmitted w) ->
    exists t, tasks w !! i = Some t /\ awaits_session t = false.

(** The session provider fails for the second of two requests. *)
Definition lookup_failure : list Event :=
  [ Call (client_request "get" "/v1/integrations/" None);
    Call (client_request "delete" "/v1/integrations/7" None);
    SessionSettled 0 (session_of "tok");
    SessionSettled 1 (Rejected (mkError None "session storage unavailable"));
    TransportSettled 0 (Fulfilled (mkResponse 200 "{}")) ].

(** The location changes while the sign-out of [one_failure] is pending. *)
Definition navigation_during_signOut : list Event :=
  one_failure
  ++ [ Navigated "/settings" "?tab=billing"; SignOutSettled 0 (Fulfilled tt) ].

(** The sign-out of [one_failure] fails. *)
Definition failed_signOut : list Event :=
  one_failure ++ [ SignOutSettled 0 (Rejected signOutError) ].

(** ** Further observations *)

(** The part of the world that only a recovery changes. *)
Definition recovery_state (w : World)
  : bool * list nat * nat * list string * list JsError :=
  (isHandlingUnauthorized w, timers w, signOutCalls w, hrefAssignments w,
   consoleErrors w).

(** A handler call that can start a recovery: a 401 off the public paths. *)
Definition wants_recovery (c : HandlerCall) : bool :=
  is_unauthorized (call_error c) && negb (on_public_path (call_pathname c)).

Definition not_TimerFired (ev : Event) : bool :=
  match ev with
  | TimerFired _ => false
  | _ => true
  end.

(** A first request fails with 403, a second one with 401 on a public
    page. *)
Definition harmless_failures : list Event :=
  [ Call (client_request "get" "/v1/integrations/" None);
    SessionSettled 0 (session_of "tok");
    TransportSettled 0
      (Rejected (mkError (Some (mkResponse 403 "")) "Forbidden"));
    Navigated "/login" "";
    Call (client_request "get" "/v1/health" None);
    SessionSettled 1 (Fulfilled (mkSessionResult None));
    TransportSettled 1 (Rejected error401) ].

(** A recovery runs to its end, then more requests fail with 401 while the
    reset timer is pending. *)
Definition failures_during_cooldown : list Event :=
  one_failure
  ++ [ SignOutSettled 0 (Rejected signOutError);
       Tick 400;
       Call (client_request "get" "/v1/integrations/" None);
       SessionSettled 1 (session_of "tok");
       TransportSettled 1 (Rejected error401);
       Tick 4000;
       Call (client_request "get" "/v1/integrations/" None);
       SessionSettled 2 (session_of "tok");
       TransportSettled 2 (Rejected error401) ].

(** [s] consists of characters that satisfy [ok]. *)
Fixpoint all_chars (ok : ascii -> bool) (s : string) : bool :=
  match s with
  | EmptyString => true
  | String c rest => ok c && all_chars ok rest
  end.

(** The characters [encodeURIComponent] can produce. *)
Definition url_safe (c : ascii) : bool :=
  is_unreserved c || Ascii.eqb c "%".

(** The value of a hexadecimal digit written by [hex_digit]. *)
Definition hex_value (c : ascii) : nat :=
  match c with
  | "0" => 0 | "1" => 1 | "2" => 2 | "3" => 3 | "4" => 4
  | "5" => 5 | "6" => 6 | "7" => 7 | "8" => 8 | "9" => 9
  | "A" => 10 | "B" => 11 | "C" => 12 | "D" => 13 | "E" => 14
  | _ => 15
  end%char.

(** The byte written as the two digits [hi] and [lo]. *)
Definition byte_of_hex (hi lo : ascii) : ascii :=
  ascii_of_nat (16 * hex_value hi + hex_value lo).

(** A redirect to the login page with one parameter whose value needs no
    further escaping. *)
Definition is_login_redirect (target : string) : Prop :=
  exists value,
    target = "/login?returnUrl=" +:+ value
    /\ all_chars url_safe value = true.

(** The descriptors of the requests issued during a run, in order: the
    [i]-th is the one of task [i] when the run starts with no task. *)
Fixpoint issued (evs : list Event) : list RequestConfig :=
  match evs with
  | [] => []
  | Call config :: rest => config :: issued rest
  | _ :: rest => issued rest
  end.

(** Task [i], if it is still in the request interceptor, holds the
    descriptor it was issued with. *)
Definition holds_issued (cs : list RequestConfig) (w : World) : Prop :=
  length (tasks w) = length cs
  /\ forall i config,
       tasks w !! i = Some (AwaitGetSession config) -> cs !! i = Some config.

(** Two requests are issued together; their session lookups resolve with
    different tokens, the second one first. *)
Definition rotating_token : list Event :=
  [ Call (client_request "get" "/v1/integrations/" None);
    Call (client_request "put" "/v1/integrations/7" (Some "{}"));
    SessionSettled 1 (session_of "new");
    SessionSettled 0 (session_of "old") ].

(** A recovery has run to its end and the delay has passed. *)
Definition cooled_down : list Event :=
  one_failure
  ++ [ SignOutSettled 0 (Fulfilled tt);
       Call (client_request "get" "/v1/integrations/" None);
       SessionSettled 1 (Fulfilled (mkSessionResult None));
       Tick 1000 ].

(** ** The resource methods, continued *)

(** [Platform] (line 24). *)
Inductive Platform := github | discord | slack | discourse.

(** The string a platform is at run time. *)
Definition platform_name (p : Platform) : string :=
  match p with
  | github => "github"
  | discord => "discord"
  | slack => "slack"
  | discourse => "discourse"
  end.

(** The requests the methods issue (lines 141-208).  Bodies are the
    serialised payloads; identifiers are spliced into the path as they
    are. *)
Definition createIntegration_request (payload : string) : RequestConfig :=
  client_request "post" "/v1/integrations/" (Some payload).

Definition getIntegrations_request : RequestConfig :=
  client_request "get" "/v1/integrations/" None.

Definition getIntegration_request (integrationId : string) : RequestConfig :=
  client_request "get" ("/v1/integrations/" +:+ integrationId) None.

Definition getIntegrationStatus_request (platform : Platform) : RequestConfig :=
  client_request "get"
    ("/v1/integrations/status/" +:+ platform_name platform) None.

Definition updateIntegration_request (integrationId payload : string)
  : RequestConfig :=
  client_request "put" ("/v1/integrations/" +:+ integrationId) (Some payload).

Definition deleteIntegration_request (integrationId : string) : RequestConfig :=
  client_request "delete" ("/v1/integrations/" +:+ integrationId) None.

Definition healthCheck_request : RequestConfig :=
  client_request "get" "/v1/health" None.

(** [return response.data] after [await this.client...]: what
    [createIntegration], [getIntegration], [getIntegrationStatus] and
    [updateIntegration] return for the outcome of their request. *)
Definition returns_data (outcome : Settled Response) : Settled string :=
  match outcome with
  | Fulfilled r => Fulfilled (data r)
  | Rejected e => Rejected e
  end.

(** [deleteIntegration] (lines 199-201) awaits the request and returns
    nothing. *)
Definition deleteIntegration_result (outcome : Settled Response)
  : Settled unit :=
  match outcome with
  | Fulfilled _ => Fulfilled tt
  | Rejected e => Rejected e
  end.

(** [healthCheck] (lines 206-217) for the outcome of its request; [dev] is
    [import.meta.env.DEV]. *)
Definition healthCheck_result (dev : bool) (outcome : Settled Response)
  : Sync (Settled bool) :=
  match outcome with
  | Fulfilled r => mret (Fulfilled (status r =? 200)%Z)
  | Rejected error =>
      (if dev then console_error error else mret tt);;
      mret (Fulfilled false)
  end.

(** What [healthCheck] returns once task [i] has settled: the result and
    the world after the method's own logging. *)
Definition healthCheck_of (dev : bool) (i : nat) (w : World)
  : option (Settled bool * World) :=
  match tasks w !! i with
  | Some (Done outcome) => Some (healthCheck_result dev outcome w)
  | _ => None
  end.

(** A health probe is answered with 401 and the sign-out succeeds. *)
Definition unauthorized_probe : list Event :=
  [ Call healthCheck_request;
    SessionSettled 0 (session_of "expired");
    TransportSettled 0 (Rejected error401);
    SignOutSettled 0 (Fulfilled tt) ].

(** * Properties *)

(** ** The two segments of the error handler *)

Lemma response_rejected_eq (error : JsError) (w : World) :
  response_rejected error w =
  if starts_recovery error w
  then (AtSignOut (or_else (location_pathname w) "/"), recovering w)
  else (Returned (Rejected error), w).
Proof.
  unfold response_rejected, starts_recovery.
  destruct (is_unauthorized error); simpl; [|reflexivity].
  unfold mbind, Sync_bind, read, mret, Sync_ret; simpl.
  destruct (on_public_path _); simpl; [reflexivity|].
  destruct (isHandlingUnauthorized w); reflexivity.
Qed.

Lemma response_rejected_resume_eq error pathname signedOut (w : World) :
  response_rejected_resume error pathname signedOut w =
  (Rejected error,
   mkWorld (isHandlingUnauthorized w) (location_pathname w)
     (location_search w) (clock w) (timers w ++ [clock w + RESET_DELAY])
     (signOutCalls w)
     (("/login?returnUrl="
        +:+ encodeURIComponent (pathname +:+ location_search w))
        :: hrefAssignments w)
     (match signedOut with
      | Fulfilled _ => consoleErrors w
      | Rejected e => e :: consoleErrors w
      end)
     (transmitted w) (tasks w)).
Proof. destruct signedOut; reflexivity. Qed.

Lemma enter_response_rejected_eq i error (w : World) :
  enter_response_rejected i error w =
  if starts_recovery error w
  then set_task i (AwaitSignOut error (or_else (location_pathname w) "/"))
         (recovering w)
  else set_task i (Done (Rejected error)) w.
Proof.
  unfold enter_response_rejected. rewrite response_rejected_eq.
  destruct (starts_recovery error w); reflexivity.
Qed.

(** ** Counting the suspended handlers *)

Lemma filter_awaits_insert (l : list Task) i (old t : Task) :
  l !! i = Some old ->
  length (List.filter awaits_signOut (<[i := t]> l))
    + (if awaits_signOut old then 1 else 0)
  = length (List.filter awaits_signOut l)
    + (if awaits_signOut t then 1 else 0).
Proof.
  revert i. induction l as [|a l IH]; intros [|i] H; simpl in *; try discriminate.
  - injection H as ->. destruct (awaits_signOut old), (awaits_signOut t); simpl; lia.
  - specialize (IH i H). destruct (awaits_signOut a); simpl; lia.
Qed.

Lemma filter_awaits_app (l : list Task) (t : Task) :
  length (List.filter awaits_signOut (l ++ [t]))
  = length (List.filter awaits_signOut l) + (if awaits_signOut t then 1 else 0).
Proof.
  rewrite List.filter_app, length_app. simpl.
  destruct (awaits_signOut t); reflexivity.
Qed.

Lemma signingOut_pos (w : World) i error pathname :
  tasks w !! i = Some (AwaitSignOut error pathname) -> 0 < signingOut w.
Proof.
  unfold signingOut. generalize (tasks w) as l. intros l. revert i.
  induction l as [|a l IH]; intros [|i] H; simpl in *; try discriminate.
  - injection H as ->. simpl. lia.
  - specialize (IH i H). destruct (awaits_signOut a); simpl; lia.
Qed.

Lemma signingOut_zero_done (w : World) :
  Forall (fun t => is_done t = true) (tasks w) -> signingOut w = 0.
Proof.
  unfold signingOut. induction 1 as [|t l Ht _ IH]; [reflexivity|].
  simpl. destruct t; try discriminate; exact IH.
Qed.

(** ** The flag invariant *)

Lemma consistent_initial pathname search : consistent (initial pathname search).
Proof. reflexivity. Qed.

Lemma consistent_step ev (w w' : World) :
  consistent w -> step ev w = Some w' -> consistent w'.
Proof.
  unfold consistent, signingOut. intros Hc Hs.
  destruct ev as [config|i r|i r|i r|k|ms|p s]; simpl in Hs.
  - injection Hs as <-. simpl. rewrite filter_awaits_app. simpl. lia.
  - destruct (tasks w !! i) as [[c| | |]|] eqn:Ht; try discriminate.
    destruct r as [r|e]; injection Hs as <-.
    + simpl. pose proof (filter_awaits_insert _ _ _ (AwaitTransport (request_fulfilled c r)) Ht).
      simpl in *. lia.
    + rewrite enter_response_rejected_eq. unfold starts_recovery.
      destruct (is_unauthorized e && negb (on_public_path _) && negb _) eqn:Hb; simpl.
      * apply andb_prop in Hb as [_ Hb]. apply negb_true_iff in Hb. rewrite Hb in Hc.
        pose proof (filter_awaits_insert _ _ _
          (AwaitSignOut e (or_else (location_pathname w) "/")) Ht).
        simpl in *. lia.
      * pose proof (filter_awaits_insert _ _ _ (Done (Rejected e)) Ht).
        simpl in *. lia.
  - destruct (tasks w !! i) as [[|c| |]|] eqn:Ht; try discriminate.
    destruct r as [r|e]; injection Hs as <-.
    + simpl. pose proof (filter_awaits_insert _ _ _ (Done (Fulfilled (response_fulfilled r))) Ht).
      simpl in *. lia.
    + rewrite enter_response_rejected_eq. unfold starts_recovery.
      destruct (is_unauthorized e && negb (on_public_path _) && negb _) eqn:Hb; simpl.
      * apply andb_prop in Hb as [_ Hb]. apply negb_true_iff in Hb. rewrite Hb in Hc.
        pose proof (filter_awaits_insert _ _ _
          (AwaitSignOut e (or_else (location_pathname w) "/")) Ht).
        simpl in *. lia.
      * pose proof (filter_awaits_insert _ _ _ (Done (Rejected e)) Ht).
        simpl in *. lia.
  - destruct (tasks w !! i) as [[| |error pathname|]|] eqn:Ht; try discriminate.
    rewrite response_rejected_resume_eq in Hs. injection Hs as <-. simpl.
    pose proof (filter_awaits_insert _ _ _ (Done (Rejected error)) Ht) as Hf.
    rewrite length_app. simpl in *.
    destruct (isHandlingUnauthorized w); lia.
  - destruct (timers w !! k) as [due|] eqn:Hk; try discriminate.
    destruct (due <=? clock w)%nat; try discriminate.
    injection Hs as <-. simpl.
    assert (Hlen : length (delete k (timers w)) + 1 = length (timers w)).
    { pose proof (lookup_lt_Some _ _ _ Hk). rewrite length_delete by eauto. lia. }
    destruct (isHandlingUnauthorized w); lia.
  - injection Hs as <-. exact Hc.
  - injection Hs as <-. exact Hc.
Qed.

Lemma consistent_run evs (w w' : World) :
  consistent w -> run evs w = Some w' -> consistent w'.
Proof.
  revert w. induction evs as [|ev evs IH]; intros w Hc Hr; simpl in Hr.
  - injection Hr as <-. exact Hc.
  - destruct (step ev w) as [w1|] eqn:Hs; [|discriminate].
    eapply IH; [eapply consistent_step; eauto|exact Hr].
Qed.

(** ** A burst of unauthorized failures *)

Lemma signingOut_set_task (w : World) i (old t : Task) :
  tasks w !! i = Some old ->
  signingOut (set_task i t w) + (if awaits_signOut old then 1 else 0)
  = signingOut w + (if awaits_signOut t then 1 else 0).
Proof. intros H. unfold signingOut. simpl. by apply filter_awaits_insert. Qed.

Lemma recovered_once_enter s0 h0 t0 (w : World) i e (old : Task) :
  recovered_once s0 h0 t0 w ->
  tasks w !! i = Some old -> awaits_signOut old = false ->
  in_burst t0 (mkCall e (or_else (location_pathname w) "/") (clock w)) ->
  recovered_once s0 h0 t0 (enter_response_rejected i e w).
Proof.
  intros (Hs & Ht & Hcase) Hi Hold (_ & _ & Hlate). simpl in Hlate.
  rewrite enter_response_rejected_eq.
  assert (Hflag : isHandlingUnauthorized w = true).
  { destruct Hcase as [H|[H|H]]; [tauto|tauto|lia]. }
  unfold starts_recovery. rewrite Hflag, andb_false_r.
  pose proof (signingOut_set_task w i old (Done (Rejected e)) Hi) as Hn.
  rewrite Hold in Hn. simpl in Hn.
  rewrite !Nat.add_0_r in Hn.
  unfold recovered_once. rewrite Hn. exact (conj Hs (conj Ht Hcase)).
Qed.

Lemma recovered_once_step s0 h0 t0 ev (w w' : World) :
  recovered_once s0 h0 t0 w ->
  step ev w = Some w' ->
  (forall c, calls_handler ev w = Some c -> in_burst t0 c) ->
  recovered_once s0 h0 t0 w'.
Proof.
  intros Hr Hstep Hcall.
  destruct ev as [config|i r|i r|i r|k|ms|p s]; simpl in Hstep, Hcall.
  - injection Hstep as <-. unfold recovered_once, signingOut in *. simpl.
    rewrite filter_awaits_app. simpl. rewrite Nat.add_0_r. exact Hr.
  - destruct (tasks w !! i) as [[c| | |]|] eqn:Hi; try discriminate.
    destruct r as [r|e]; injection Hstep as <-.
    + pose proof (filter_awaits_insert _ _ _ (AwaitTransport (request_fulfilled c r)) Hi) as Hn.
      simpl in Hn. rewrite !Nat.add_0_r in Hn.
      unfold recovered_once, signingOut in *. simpl. rewrite Hn. exact Hr.
    + eapply recovered_once_enter; eauto.
  - destruct (tasks w !! i) as [[|c| |]|] eqn:Hi; try discriminate.
    destruct r as [r|e]; injection Hstep as <-.
    + pose proof (signingOut_set_task w i _ (Done (Fulfilled (response_fulfilled r))) Hi) as Hn.
      simpl in Hn. rewrite !Nat.add_0_r in Hn.
      unfold recovered_once in *. rewrite Hn. exact Hr.
    + eapply recovered_once_enter; eauto.
  - destruct (tasks w !! i) as [[| |error pathname|]|] eqn:Hi; try discriminate.
    rewrite response_rejected_resume_eq in Hstep. injection Hstep as <-.
    pose proof (signingOut_pos w i _ _ Hi) as Hpos.
    pose proof (filter_awaits_insert _ _ _ (Done (Rejected error)) Hi) as Hn.
    destruct Hr as (Hs & Ht & [H|[H|H]]); [|unfold signingOut in *; lia..].
    destruct H as (Hf & Hone & Htm & Hh).
    unfold recovered_once, signingOut in *. simpl in *.
    split; [exact Hs|]. split; [exact Ht|]. right; left.
    split; [exact Hf|]. split; [lia|]. split; [|lia].
    rewrite Htm. eexists; split; [reflexivity|]. unfold RESET_DELAY. lia.
  - destruct (timers w !! k) as [due|] eqn:Hk; try discriminate.
    destruct (due <=? clock w)%nat eqn:Hdue; try discriminate.
    injection Hstep as <-. apply Nat.leb_le in Hdue.
    destruct Hr as (Hs & Ht & [H|[H|H]]).
    + destruct H as (_ & _ & Htm & _). rewrite Htm in Hk. discriminate.
    + destruct H as (Hf & Hz & (d & Htm & Hd) & Hh).
      rewrite Htm in Hk. destruct k as [|k]; simpl in Hk; [|discriminate].
      injection Hk as <-.
      unfold recovered_once, signingOut in *. simpl.
      split; [exact Hs|]. split; [exact Ht|]. right; right.
      rewrite Htm. simpl. repeat split; auto; lia.
    + destruct H as (_ & _ & Htm & _). rewrite Htm in Hk. discriminate.
  - injection Hstep as <-.
    destruct Hr as (Hs & Ht & Hcase).
    unfold recovered_once, signingOut in *. simpl.
    split; [exact Hs|]. split; [lia|].
    destruct Hcase as [H|[H|H]]; [left; exact H|right; left; exact H|right; right].
    destruct H as (? & ? & ? & ? & ?). repeat split; auto; lia.
  - injection Hstep as <-. exact Hr.
Qed.

Lemma recovered_once_run s0 h0 t0 evs (w w' : World) :
  recovered_once s0 h0 t0 w ->
  run evs w = Some w' ->
  Forall (in_burst t0) (handler_calls evs w) ->
  recovered_once s0 h0 t0 w'.
Proof.
  revert w. induction evs as [|ev evs IH]; intros w Hr Hrun Hall; simpl in *.
  - injection Hrun as <-. exact Hr.
  - destruct (step ev w) as [w1|] eqn:Hs; [|discriminate].
    apply (IH w1); [|exact Hrun|].
    + eapply recovered_once_step; eauto.
      intros c Hc. rewrite Hc in Hall. by inversion Hall.
    + destruct (calls_handler ev w); [by inversion Hall|exact Hall].
Qed.

Lemma quiet_step s0 h0 ev (w w' : World) :
  quiet s0 h0 w -> step ev w = Some w' -> calls_handler ev w = None ->
  quiet s0 h0 w'.
Proof.
  intros (Hf & Hz & Htm & Hs & Hh) Hstep Hnone.
  destruct ev as [config|i r|i r|i r|k|ms|p s]; simpl in Hstep, Hnone.
  - injection Hstep as <-. unfold quiet, signingOut in *. simpl.
    rewrite filter_awaits_app. simpl. repeat split; auto; lia.
  - destruct (tasks w !! i) as [[c| | |]|] eqn:Hi; try discriminate.
    destruct r as [r|e]; [|discriminate]. injection Hstep as <-.
    pose proof (filter_awaits_insert _ _ _ (AwaitTransport (request_fulfilled c r)) Hi) as Hn.
    unfold quiet, signingOut in *. simpl in *. repeat split; auto; lia.
  - destruct (tasks w !! i) as [[|c| |]|] eqn:Hi; try discriminate.
    destruct r as [r|e]; [|discriminate]. injection Hstep as <-.
    pose proof (filter_awaits_insert _ _ _ (Done (Fulfilled (response_fulfilled r))) Hi) as Hn.
    unfold quiet, signingOut in *. simpl in *. repeat split; auto; lia.
  - destruct (tasks w !! i) as [[| |error pathname|]|] eqn:Hi; try discriminate.
    pose proof (signingOut_pos w i _ _ Hi). lia.
  - rewrite Htm in Hstep. discriminate.
  - injection Hstep as <-. unfold quiet, signingOut in *. simpl. auto.
  - injection Hstep as <-. unfold quiet, signingOut in *. simpl. auto.
Qed.

Lemma quiet_first_call s0 h0 ev (w w' : World) (c : HandlerCall) :
  quiet s0 h0 w -> step ev w = Some w' -> calls_handler ev w = Some c ->
  in_burst (call_time c) c ->
  recovered_once s0 h0 (call_time c) w'.
Proof.
  intros (Hf & Hz & Htm & Hs & Hh) Hstep Hcall (Hu & Hp & _).
  assert (Hgo : forall i e old,
    tasks w !! i = Some old -> awaits_signOut old = false ->
    c = mkCall e (or_else (location_pathname w) "/") (clock w) ->
    recovered_once s0 h0 (call_time c) (enter_response_rejected i e w)).
  { intros i e old Hi Hold ->. simpl in *.
    rewrite enter_response_rejected_eq. unfold starts_recovery.
    rewrite Hu, Hp, Hf. simpl.
    pose proof (filter_awaits_insert _ _ _
      (AwaitSignOut e (or_else (location_pathname w) "/")) Hi) as Hn.
    rewrite Hold in Hn.
    unfold recovered_once, signingOut in *. simpl in *.
    split; [congruence|]. split; [lia|]. left. repeat split; auto; lia. }
  destruct ev as [config|i r|i r|i r|k|ms|p s]; simpl in Hstep, Hcall;
    try discriminate.
  - destruct (tasks w !! i) as [[cfg| | |]|] eqn:Hi; try discriminate.
    destruct r as [r|e]; [discriminate|].
    injection Hstep as <-. injection Hcall as <-. by eapply Hgo.
  - destruct (tasks w !! i) as [[|cfg| |]|] eqn:Hi; try discriminate.
    destruct r as [r|e]; [discriminate|].
    injection Hstep as <-. injection Hcall as <-. by eapply Hgo.
Qed.

Lemma quiet_run s0 h0 evs (w w' : World) first others :
  quiet s0 h0 w ->
  run evs w = Some w' ->
  handler_calls evs w = first :: others ->
  Forall (in_burst (call_time first)) (first :: others) ->
  recovered_once s0 h0 (call_time first) w'.
Proof.
  revert w. induction evs as [|ev evs IH]; intros w Hq Hrun Hcalls Hall;
    simpl in *; [discriminate|].
  destruct (step ev w) as [w1|] eqn:Hs; [|discriminate].
  destruct (calls_handler ev w) as [c|] eqn:Hc.
  - injection Hcalls as -> <-. inversion Hall as [|? ? Hfirst Hrest]; subst.
    eapply recovered_once_run; [|exact Hrun|exact Hrest].
    eapply quiet_first_call; eauto.
  - apply (IH w1); auto. eapply quiet_step; eauto.
Qed.

(** C1. A burst of unauthorized failures recovers exactly once.  Take a
    world where no recovery is under way, and a run in which the error
    handler is called N >= 1 times, each time with a 401 and off the public
    paths, all of them less than the reset delay after the first.  However
    the handlers, the sign-out, the clock, the timer and other requests
    interleave, [signOut] is called exactly once, there is at most one
    redirect, and exactly one when every task of the run has finished.  A
    handler that finds the flag set returns the rejection and touches
    nothing. *)
Theorem burst_recovers_once (w0 w : World) (evs : list Event)
    (first : HandlerCall) (others : list HandlerCall) :
  consistent w0 ->
  isHandlingUnauthorized w0 = false ->
  run evs w0 = Some w ->
  handler_calls evs w0 = first :: others ->
  Forall (in_burst (call_time first)) (first :: others) ->
  signOutCalls w = S (signOutCalls w0)
  /\ length (hrefAssignments w) <= S (length (hrefAssignments w0))
  /\ (Forall (fun t => is_done t = true) (tasks w) ->
      length (hrefAssignments w) = S (length (hrefAssignments w0)))
  /\ (forall error w1,
        isHandlingUnauthorized w1 = true ->
        response_rejected error w1 = (Returned (Rejected error), w1)).
Proof.
  intros Hc Hf Hrun Hcalls Hall.
  assert (Hq : quiet (signOutCalls w0) (length (hrefAssignments w0)) w0).
  { unfold consistent in Hc. rewrite Hf in Hc.
    unfold quiet. repeat split; auto; try lia.
    destruct (timers w0); [reflexivity|simpl in Hc; lia]. }
  pose proof (quiet_run _ _ _ _ _ _ _ Hq Hrun Hcalls Hall) as (Hs & _ & Hcase).
  split; [exact Hs|]. split; [|split].
  - destruct Hcase as [H|[H|H]]; lia.
  - intros Hdone. apply signingOut_zero_done in Hdone.
    destruct Hcase as [H|[H|H]]; lia.
  - intros error w1 Hset. rewrite response_rejected_eq.
    unfold starts_recovery. by rewrite Hset, andb_false_r.
Qed.

(** ** What a turn of the loop does to one task *)

Lemma set_task_lookup_ne (w : World) i j (t : Task) :
  i <> j -> tasks (set_task i t w) !! j = tasks w !! j.
Proof. intros H. simpl. by apply list_lookup_insert_ne. Qed.

Lemma set_task_lookup_eq (w : World) i (t old : Task) :
  tasks w !! i = Some old -> tasks (set_task i t w) !! i = Some t.
Proof.
  intros H. simpl. apply list_lookup_insert_eq. by eapply lookup_lt_Some.
Qed.

Lemma enter_lookup_ne i j e (w : World) :
  i <> j -> tasks (enter_response_rejected i e w) !! j = tasks w !! j.
Proof.
  intros H. rewrite enter_response_rejected_eq.
  destruct (starts_recovery e w); simpl; by apply list_lookup_insert_ne.
Qed.

(** An event that is not addressed to task [i] leaves it where it is. *)
Lemma step_other_task ev (w w' : World) i (t : Task) :
  step ev w = Some w' -> tasks w !! i = Some t -> addressee ev <> Some i ->
  tasks w' !! i = Some t.
Proof.
  intros Hs Hi Hne.
  destruct ev as [config|j r|j r|j r|k|ms|p s]; simpl in Hs, Hne.
  - injection Hs as <-. simpl. rewrite lookup_app_l; [exact Hi|].
    by eapply lookup_lt_Some.
  - assert (j <> i) by congruence.
    destruct (tasks w !! j) as [[c| | |]|]; try discriminate.
    destruct r; injection Hs as <-.
    + simpl. by rewrite list_lookup_insert_ne.
    + by rewrite enter_lookup_ne.
  - assert (j <> i) by congruence.
    destruct (tasks w !! j) as [[|c| |]|]; try discriminate.
    destruct r; injection Hs as <-.
    + simpl. by rewrite list_lookup_insert_ne.
    + by rewrite enter_lookup_ne.
  - assert (j <> i) by congruence.
    destruct (tasks w !! j) as [[| |e p|]|]; try discriminate.
    rewrite response_rejected_resume_eq in Hs. injection Hs as <-.
    simpl. by rewrite list_lookup_insert_ne.
  - destruct (timers w !! k); try discriminate.
    destruct (_ <=? _)%nat; try discriminate. by injection Hs as <-.
  - by injection Hs as <-.
  - by injection Hs as <-.
Qed.

(** A settled promise stays settled. *)
Lemma step_done ev (w w' : World) i outcome :
  step ev w = Some w' -> tasks w !! i = Some (Done outcome) ->
  tasks w' !! i = Some (Done outcome).
Proof.
  intros Hs Hi. eapply step_other_task; eauto.
  destruct ev as [config|j r|j r|j r|k|ms|p s]; simpl in *; try discriminate;
    intros [= ->]; rewrite Hi in Hs; discriminate.
Qed.

Lemma run_done evs (w w' : World) i outcome :
  run evs w = Some w' -> tasks w !! i = Some (Done outcome) ->
  tasks w' !! i = Some (Done outcome).
Proof.
  revert w. induction evs as [|ev evs IH]; intros w Hr Hi; simpl in Hr.
  - by injection Hr as <-.
  - destruct (step ev w) as [w1|] eqn:Hs; [|discriminate].
    eapply IH; eauto using step_done.
Qed.

(** A handler suspended at [signOut()] resumes only when that promise
    settles, and then rejects with the error it was called with. *)
Lemma step_awaiting ev (w w' : World) i error pathname :
  step ev w = Some w' -> tasks w !! i = Some (AwaitSignOut error pathname) ->
  tasks w' !! i = Some (AwaitSignOut error pathname)
  \/ (is_SignOutSettled ev = true /\ addressee ev = Some i
      /\ tasks w' !! i = Some (Done (Rejected error))).
Proof.
  intros Hs Hi.
  destruct (decide (addressee ev = Some i)) as [He|He].
  - destruct ev as [config|j r|j r|j r|k|ms|p s]; simpl in *; try discriminate;
      injection He as ->; rewrite Hi in Hs; try discriminate.
    rewrite response_rejected_resume_eq in Hs. injection Hs as <-.
    right. repeat split. simpl. apply list_lookup_insert_eq.
    by eapply lookup_lt_Some.
  - left. eapply step_other_task; eauto.
Qed.

Lemma run_rejects_with evs (w w' : World) i error :
  run evs w = Some w' ->
  (exists pathname, tasks w !! i = Some (AwaitSignOut error pathname))
  \/ tasks w !! i = Some (Done (Rejected error)) ->
  (exists pathname, tasks w' !! i = Some (AwaitSignOut error pathname))
  \/ tasks w' !! i = Some (Done (Rejected error)).
Proof.
  revert w. induction evs as [|ev evs IH]; intros w Hr Hi; simpl in Hr.
  - by injection Hr as <-.
  - destruct (step ev w) as [w1|] eqn:Hs; [|discriminate].
    apply (IH w1 Hr). destruct Hi as [[p Hi]|Hi].
    + destruct (step_awaiting _ _ _ _ _ _ Hs Hi) as [H|(_ & _ & H)]; eauto.
    + right. eapply step_done; eauto.
Qed.

Lemma enter_lookup_eq i e (w : World) (old : Task) :
  tasks w !! i = Some old ->
  tasks (enter_response_rejected i e w) !! i =
  Some (if starts_recovery e w
        then AwaitSignOut e (or_else (location_pathname w) "/")
        else Done (Rejected e)).
Proof.
  intros Hi. rewrite enter_response_rejected_eq.
  destruct (starts_recovery e w); simpl; apply list_lookup_insert_eq;
    by eapply lookup_lt_Some.
Qed.

Lemma run_app evs1 evs2 (w w' : World) :
  run (evs1 ++ evs2) w = Some w' ->
  exists w1, run evs1 w = Some w1 /\ run evs2 w1 = Some w'.
Proof.
  revert w. induction evs1 as [|ev evs IH]; intros w H; simpl in *.
  - eauto.
  - destruct (step ev w); [|discriminate]. eauto.
Qed.

Lemma burst_recovers_once_witness :
  signOutCalls (after three_failures (initial "/settings" "")) = 1
  /\ length (hrefAssignments (after three_failures (initial "/settings" ""))) = 1.
Proof.
  destruct (burst_recovers_once (initial "/settings" "")
              (after three_failures (initial "/settings" "")) three_failures
              (mkCall error401 "/settings" 0)
              [mkCall error401 "/settings" 0; mkCall error401 "/settings" 0])
    as (H1 & _ & H3 & _).
  - reflexivity.
  - reflexivity.
  - vm_compute. reflexivity.
  - vm_compute. reflexivity.
  - repeat constructor; vm_compute; lia.
  - split; [exact H1|]. apply H3. vm_compute. repeat constructor.
Defined.

(** ** When the flag is cleared *)

Lemma awaiting_flag (w : World) i error pathname :
  consistent w -> tasks w !! i = Some (AwaitSignOut error pathname) ->
  isHandlingUnauthorized w = true /\ timers w = [] /\ signingOut w = 1.
Proof.
  intros Hc Hi. pose proof (signingOut_pos w i _ _ Hi) as Hpos.
  unfold consistent in Hc.
  destruct (isHandlingUnauthorized w); [|lia].
  destruct (timers w); simpl in Hc; [|lia]. repeat split; lia.
Qed.

Lemma run_awaiting evs (w w' : World) i error pathname :
  run evs w = Some w' ->
  forallb not_SignOutSettled evs = true ->
  tasks w !! i = Some (AwaitSignOut error pathname) ->
  tasks w' !! i = Some (AwaitSignOut error pathname).
Proof.
  revert w. induction evs as [|ev evs IH]; intros w Hr Hn Hi; simpl in *.
  - by injection Hr as <-.
  - destruct (step ev w) as [w1|] eqn:Hs; [|discriminate].
    apply andb_prop in Hn as [Hev Hn]. apply (IH w1 Hr Hn).
    destruct (step_awaiting _ _ _ _ _ _ Hs Hi) as [H|(Hset & _)]; [exact H|].
    unfold not_SignOutSettled in Hev. rewrite Hset in Hev. discriminate.
Qed.

Lemma step_clock ev (w w' : World) : step ev w = Some w' -> clock w <= clock w'.
Proof.
  intros Hs. destruct ev as [config|j r|j r|j r|k|ms|p s]; simpl in Hs.
  - injection Hs as <-. simpl. lia.
  - destruct (tasks w !! j) as [[c| | |]|]; try discriminate.
    destruct r; injection Hs as <-; [simpl; lia|].
    rewrite enter_response_rejected_eq.
    destruct (starts_recovery _ _); simpl; lia.
  - destruct (tasks w !! j) as [[|c| |]|]; try discriminate.
    destruct r; injection Hs as <-; [simpl; lia|].
    rewrite enter_response_rejected_eq.
    destruct (starts_recovery _ _); simpl; lia.
  - destruct (tasks w !! j) as [[| |e p|]|]; try discriminate.
    rewrite response_rejected_resume_eq in Hs. injection Hs as <-. simpl. lia.
  - destruct (timers w !! k); try discriminate.
    destruct (_ <=? _)%nat; try discriminate. injection Hs as <-. simpl. lia.
  - injection Hs as <-. simpl. lia.
  - injection Hs as <-. simpl. lia.
Qed.

Lemma run_clock evs (w w' : World) : run evs w = Some w' -> clock w <= clock w'.
Proof.
  revert w. induction evs as [|ev evs IH]; intros w Hr; simpl in Hr.
  - injection Hr as <-. lia.
  - destruct (step ev w) as [w1|] eqn:Hs; [|discriminate].
    pose proof (step_clock _ _ _ Hs). pose proof (IH _ Hr). lia.
Qed.

(** While the reset timer is pending and not yet due, nothing clears the
    flag and nothing starts another recovery. *)
Lemma cooling_step due ev (w w' : World) :
  cooling due w -> step ev w = Some w' -> clock w' < due -> cooling due w'.
Proof.
  intros (Hf & Htm & Hz) Hs Hlt.
  pose proof (step_clock _ _ _ Hs) as Hmono.
  assert (Henter : forall i e old, tasks w !! i = Some old ->
            awaits_signOut old = false ->
            cooling due (enter_response_rejected i e w)).
  { intros i e old Hi Hold. rewrite enter_response_rejected_eq.
    unfold starts_recovery. rewrite Hf, andb_false_r.
    pose proof (signingOut_set_task w i old (Done (Rejected e)) Hi) as Hn.
    rewrite Hold in Hn. simpl in Hn. unfold cooling.
    repeat split; auto. lia. }
  destruct ev as [config|j r|j r|j r|k|ms|p s]; simpl in Hs.
  - injection Hs as <-. unfold cooling, signingOut in *. simpl.
    rewrite filter_awaits_app. simpl. repeat split; auto; lia.
  - destruct (tasks w !! j) as [[c| | |]|] eqn:Hj; try discriminate.
    destruct r as [r|e]; injection Hs as <-; [|by eapply Henter].
    pose proof (filter_awaits_insert _ _ _ (AwaitTransport (request_fulfilled c r)) Hj) as Hn.
    unfold cooling, signingOut in *. simpl in *. repeat split; auto; lia.
  - destruct (tasks w !! j) as [[|c| |]|] eqn:Hj; try discriminate.
    destruct r as [r|e]; injection Hs as <-; [|by eapply Henter].
    pose proof (filter_awaits_insert _ _ _ (Done (Fulfilled (response_fulfilled r))) Hj) as Hn.
    unfold cooling, signingOut in *. simpl in *. repeat split; auto; lia.
  - destruct (tasks w !! j) as [[| |e p|]|] eqn:Hj; try discriminate.
    pose proof (signingOut_pos w j _ _ Hj). lia.
  - rewrite Htm in Hs. destruct k as [|k]; simpl in Hs; [|discriminate].
    destruct (due <=? clock w)%nat eqn:Hd; [|discriminate].
    apply Nat.leb_le in Hd. lia.
  - injection Hs as <-. unfold cooling, signingOut in *. simpl. auto.
  - injection Hs as <-. unfold cooling, signingOut in *. simpl. auto.
Qed.

Lemma cooling_run due evs (w w' : World) :
  cooling due w -> run evs w = Some w' -> clock w' < due -> cooling due w'.
Proof.
  revert w. induction evs as [|ev evs IH]; intros w Hc Hr Hlt; simpl in Hr.
  - by injection Hr as <-.
  - destruct (step ev w) as [w1|] eqn:Hs; [|discriminate].
    apply (IH w1); auto. eapply cooling_step; eauto.
    pose proof (run_clock _ _ _ Hr). lia.
Qed.

(** C2, as stated, fails: the cooldown is not measured from the start of
    the recovery.  A request fails with 401 at time 0 and the sign-out does
    not settle; at time 5000 the flag is still set, no reset is pending and
    no timer can fire. *)
Lemma reset_not_measured_from_start :
  exists w,
    run stuck_signOut (initial "/dashboard" "") = Some w
    /\ clock w = 5000
    /\ isHandlingUnauthorized w = true
    /\ timers w = []
    /\ forall k, step (TimerFired k) w = None.
Proof.
  eexists. split; [vm_compute; reflexivity|].
  repeat split.
Qed.

(** C2, amended.  The reset is scheduled when the handler resumes after the
    sign-out has settled, for [RESET_DELAY] from that moment.  While the
    sign-out is pending the flag stays set and no reset is pending, whatever
    else happens and however long it takes.  When the sign-out settles at
    time [t], one timer is pending, due at [t + RESET_DELAY]; the flag stays
    set as long as the clock is below that, and once the delay has passed
    the timer fires and clears it. *)
Theorem reset_follows_signOut (w w1 : World) (i : nat) (error : JsError)
    (pathname : string) (evs : list Event) :
  consistent w ->
  tasks w !! i = Some (AwaitSignOut error pathname) ->
  run evs w = Some w1 ->
  forallb not_SignOutSettled evs = true ->
  isHandlingUnauthorized w1 = true
  /\ timers w1 = []
  /\ forall r, exists w2,
       step (SignOutSettled i r) w1 = Some w2
       /\ timers w2 = [clock w1 + RESET_DELAY]
       /\ (forall evs' w3,
             run evs' w2 = Some w3 -> clock w3 < clock w1 + RESET_DELAY ->
             isHandlingUnauthorized w3 = true)
       /\ exists w3,
            run [Tick RESET_DELAY; TimerFired 0] w2 = Some w3
            /\ isHandlingUnauthorized w3 = false.
Proof.
  intros Hc Hi Hrun Hn.
  pose proof (consistent_run _ _ _ Hc Hrun) as Hc1.
  pose proof (run_awaiting _ _ _ _ _ _ Hrun Hn Hi) as Hi1.
  destruct (awaiting_flag _ _ _ _ Hc1 Hi1) as (Hf & Htm & Hone).
  split; [exact Hf|]. split; [exact Htm|].
  intros r. simpl. rewrite Hi1, response_rejected_resume_eq.
  eexists. split; [reflexivity|]. simpl. rewrite Htm. simpl.
  split; [reflexivity|]. split.
  - intros evs' w3 Hr Hlt.
    refine (proj1 (cooling_run _ _ _ _ _ Hr Hlt)).
    pose proof (filter_awaits_insert _ _ _ (Done (Rejected error)) Hi1) as Hk.
    unfold cooling, signingOut in *. simpl in *.
    repeat split; auto. lia.
  - rewrite Nat.leb_refl. eexists. split; reflexivity.
Qed.

Lemma reset_follows_signOut_witness :
  isHandlingUnauthorized (after stuck_signOut (initial "/dashboard" "")) = true
  /\ timers (after stuck_signOut (initial "/dashboard" "")) = [].
Proof.
  destruct (reset_follows_signOut (after one_failure (initial "/dashboard" ""))
              (after stuck_signOut (initial "/dashboard" "")) 0 error401
              "/dashboard" [Tick 1000; Tick 4000])
    as (H1 & H2 & _).
  - reflexivity.
  - reflexivity.
  - vm_compute. reflexivity.
  - reflexivity.
  - exact (conj H1 H2).
Defined.

(** ** What is handed to the transport *)

Lemma step_transmitted ev (w w' : World) :
  step ev w = Some w' ->
  transmitted w' = transmitted w
  \/ exists j c r,
       ev = SessionSettled j (Fulfilled r)
       /\ tasks w !! j = Some (AwaitGetSession c)
       /\ transmitted w' = (j, request_fulfilled c r) :: transmitted w.
Proof.
  intros Hs. destruct ev as [config|j r|j r|j r|k|ms|p s]; simpl in Hs.
  - injection Hs as <-. by left.
  - destruct (tasks w !! j) as [[c| | |]|] eqn:Hj; try discriminate.
    destruct r as [r|e]; injection Hs as <-.
    + right. by exists j, c, r.
    + left. rewrite enter_response_rejected_eq.
      by destruct (starts_recovery _ _).
  - destruct (tasks w !! j) as [[|c| |]|] eqn:Hj; try discriminate.
    destruct r as [r|e]; injection Hs as <-; [by left|].
    left. rewrite enter_response_rejected_eq. by destruct (starts_recovery _ _).
  - destruct (tasks w !! j) as [[| |e p|]|] eqn:Hj; try discriminate.
    rewrite response_rejected_resume_eq in Hs. injection Hs as <-. by left.
  - destruct (timers w !! k); try discriminate.
    destruct (_ <=? _)%nat; try discriminate. injection Hs as <-. by left.
  - injection Hs as <-. by left.
  - injection Hs as <-. by left.
Qed.

(** No task returns to the request interceptor. *)
Lemma step_left_interceptor ev (w w' : World) i (t : Task) :
  step ev w = Some w' -> tasks w !! i = Some t -> awaits_session t = false ->
  exists t', tasks w' !! i = Some t' /\ awaits_session t' = false.
Proof.
  intros Hs Hi Ht.
  destruct (decide (addressee ev = Some i)) as [He|He].
  - destruct ev as [config|j r|j r|j r|k|ms|p s]; simpl in *; try discriminate;
      injection He as ->; rewrite Hi in Hs; destruct t; try discriminate.
    + destruct r as [r|e]; injection Hs as <-.
      * eexists. split; [eapply set_task_lookup_eq; eauto|reflexivity].
      * erewrite enter_lookup_eq by eauto.
        eexists. split; [reflexivity|]. by destruct (starts_recovery _ _).
    + rewrite response_rejected_resume_eq in Hs. injection Hs as <-.
      exists (Done (Rejected error)). split; [|reflexivity]. simpl.
      apply list_lookup_insert_eq. by eapply lookup_lt_Some.
  - exists t. split; [|exact Ht]. eapply step_other_task; eauto.
Qed.

Lemma sent_left_interceptor_step ev (w w' : World) :
  sent_left_interceptor w -> step ev w = Some w' -> sent_left_interceptor w'.
Proof.
  intros Hinv Hs i c Hin.
  destruct (step_transmitted _ _ _ Hs) as [Heq|(j & c' & r & -> & Hj & Heq)].
  - rewrite Heq in Hin. destruct (Hinv i c Hin) as (t & Hi & Ht).
    eapply step_left_interceptor; eauto.
  - rewrite Heq in Hin. destruct Hin as [[= Hji Hc]|Hin].
    + subst j c. simpl in Hs. rewrite Hj in Hs. injection Hs as <-.
      exists (AwaitTransport (request_fulfilled c' r)). split; [|reflexivity].
      simpl. apply list_lookup_insert_eq. by eapply lookup_lt_Some.
    + destruct (Hinv i c Hin) as (t & Hi & Ht).
      eapply step_left_interceptor; eauto.
Qed.

Lemma sent_left_interceptor_run evs (w w' : World) :
  sent_left_interceptor w -> run evs w = Some w' -> sent_left_interceptor w'.
Proof.
  revert w. induction evs as [|ev evs IH]; intros w Hinv Hr; simpl in Hr.
  - by injection Hr as <-.
  - destruct (step ev w) as [w1|] eqn:Hs; [|discriminate].
    eauto using sent_left_interceptor_step.
Qed.

Lemma never_sent_run evs (w w' : World) i (t : Task) :
  run evs w = Some w' ->
  tasks w !! i = Some t -> awaits_session t = false ->
  (forall c, ~ In (i, c) (transmitted w)) ->
  forall c, ~ In (i, c) (transmitted w').
Proof.
  revert w t. induction evs as [|ev evs IH]; intros w t Hr Hi Ht Hno; simpl in Hr.
  - by injection Hr as <-.
  - destruct (step ev w) as [w1|] eqn:Hs; [|discriminate].
    destruct (step_left_interceptor _ _ _ _ _ Hs Hi Ht) as (t' & Hi' & Ht').
    apply (IH w1 t' Hr Hi' Ht').
    destruct (step_transmitted _ _ _ Hs) as [Heq|(j & c' & r & -> & Hj & Heq)];
      rewrite Heq; [exact Hno|].
    intros c [[= Hji Hc]|Hin]; [|by eapply Hno].
    subst j. rewrite Hi in Hj. injection Hj as ->. discriminate.
Qed.

(** C3. When the session lookup of a request fails, the request is never
    handed to the transport, and the caller's promise rejects with that very
    failure: whenever it has settled it holds the lookup error, and for a
    lookup error that does not itself carry a 401 response it has settled
    in the same turn. *)
Theorem lookup_failure_aborts (pathname search : string)
    (evs1 evs2 : list Event) (i : nat) (e : JsError) (w : World) :
  run (evs1 ++ SessionSettled i (Rejected e) :: evs2)
      (initial pathname search) = Some w ->
  (forall c, ~ In (i, c) (transmitted w))
  /\ (forall r, tasks w !! i = Some (Done r) -> r = Rejected e)
  /\ (is_unauthorized e = false -> tasks w !! i = Some (Done (Rejected e))).
Proof.
  intros Hrun. apply run_app in Hrun as (w1 & Hr1 & Hr2).
  simpl in Hr2.
  destruct (tasks w1 !! i) as [[c| | |]|] eqn:Hi; try discriminate.
  assert (Hinv : sent_left_interceptor w1).
  { eapply sent_left_interceptor_run; [|exact Hr1]. intros ? ? []. }
  pose proof (enter_lookup_eq i e w1 _ Hi) as Hi2.
  set (w2 := enter_response_rejected i e w1) in *.
  assert (Hsent : transmitted w2 = transmitted w1).
  { unfold w2. rewrite enter_response_rejected_eq.
    by destruct (starts_recovery _ _). }
  split; [|split].
  - eapply never_sent_run; [exact Hr2|exact Hi2| |].
    + by destruct (starts_recovery _ _).
    + rewrite Hsent. intros c' Hin.
      destruct (Hinv i c' Hin) as (t & Ht & Hno). rewrite Hi in Ht.
      injection Ht as <-. discriminate.
  - intros r Hdone.
    destruct (run_rejects_with evs2 w2 w i e Hr2) as [[p Hp]|Hd].
    + rewrite Hi2. destruct (starts_recovery _ _); eauto.
    + rewrite Hp in Hdone. discriminate.
    + rewrite Hd in Hdone. by injection Hdone as <-.
  - intros Hnot. eapply run_done; [exact Hr2|].
    rewrite Hi2. unfold starts_recovery. by rewrite Hnot.
Qed.

Lemma lookup_failure_aborts_witness :
  tasks (after lookup_failure (initial "/dashboard" "")) !! 1
  = Some (Done (Rejected (mkError None "session storage unavailable"))).
Proof.
  refine (proj2 (proj2 (lookup_failure_aborts "/dashboard" ""
    [ Call (client_request "get" "/v1/integrations/" None);
      Call (client_request "delete" "/v1/integrations/7" None);
      SessionSettled 0 (session_of "tok") ]
    [ TransportSettled 0 (Fulfilled (mkResponse 200 "{}")) ]
    1 (mkError None "session storage unavailable")
    (after lookup_failure (initial "/dashboard" "")) _)) _).
  - vm_compute. reflexivity.
  - reflexivity.
Defined.

(** ** What the caller receives, and when *)

Lemma run_awaiting_own evs (w w' : World) i error pathname :
  run evs w = Some w' ->
  (forall r, ~ In (SignOutSettled i r) evs) ->
  tasks w !! i = Some (AwaitSignOut error pathname) ->
  tasks w' !! i = Some (AwaitSignOut error pathname).
Proof.
  revert w. induction evs as [|ev evs IH]; intros w Hr Hn Hi; simpl in *.
  - by injection Hr as <-.
  - destruct (step ev w) as [w1|] eqn:Hs; [|discriminate].
    apply (IH w1 Hr); [intros r Hin; apply (Hn r); by right|].
    destruct (step_awaiting _ _ _ _ _ _ Hs Hi) as [H|(Hset & Hadd & _)];
      [exact H|].
    destruct ev; try discriminate. injection Hadd as ->.
    exfalso. eapply Hn. left. reflexivity.
Qed.

Lemma signOut_settles (w : World) i error pathname r :
  tasks w !! i = Some (AwaitSignOut error pathname) ->
  exists w', step (SignOutSettled i r) w = Some w'
             /\ tasks w' !! i = Some (Done (Rejected error)).
Proof.
  intros Hi. simpl. rewrite Hi, response_rejected_resume_eq.
  eexists. split; [reflexivity|]. simpl. apply list_lookup_insert_eq.
  by eapply lookup_lt_Some.
Qed.

(** C4, as stated, fails: the recovery is not detached from the failing
    request.  The request fails with 401 at time 0; at time 5000 the
    sign-out has not settled and the caller's promise is still pending. *)
Lemma rejection_waits_for_signOut :
  exists w,
    run stuck_signOut (initial "/dashboard" "") = Some w
    /\ clock w = 5000
    /\ tasks w !! 0 = Some (AwaitSignOut error401 "/dashboard")
    /\ forall outcome, tasks w !! 0 <> Some (Done outcome).
Proof.
  eexists. split; [vm_compute; reflexivity|]. repeat split.
  intros outcome. discriminate.
Qed.

(** C4, amended.  The handler that starts the recovery awaits the sign-out:
    its caller's promise stays pending, whatever else happens, until the
    promise of [signOut()] settles, and then rejects with the original
    error whether the sign-out succeeded or failed.  A handler that does
    not start a recovery rejects with the original error in the turn in
    which it is called. *)
Theorem recovery_is_awaited (w : World) (i : nat) (old : Task)
    (error : JsError) :
  tasks w !! i = Some old ->
  if starts_recovery error w then
    forall evs w2,
      run evs (enter_response_rejected i error w) = Some w2 ->
      (forall r, ~ In (SignOutSettled i r) evs) ->
      tasks w2 !! i
        = Some (AwaitSignOut error (or_else (location_pathname w) "/"))
      /\ forall r, exists w3,
           step (SignOutSettled i r) w2 = Some w3
           /\ tasks w3 !! i = Some (Done (Rejected error))
  else
    tasks (enter_response_rejected i error w) !! i
      = Some (Done (Rejected error)).
Proof.
  intros Hi. pose proof (enter_lookup_eq i error w old Hi) as He.
  destruct (starts_recovery error w); [|exact He].
  intros evs w2 Hr Hn.
  pose proof (run_awaiting_own _ _ _ _ _ _ Hr Hn He) as H2.
  split; [exact H2|]. intros r. by eapply signOut_settles.
Qed.

Lemma recovery_is_awaited_witness :
  tasks (after stuck_signOut (initial "/dashboard" "")) !! 0
  = Some (AwaitSignOut error401 "/dashboard").
Proof.
  pose proof (recovery_is_awaited
    (after [ Call (client_request "get" "/widgets/42" None);
             SessionSettled 0 (session_of "tok") ] (initial "/dashboard" ""))
    0 (AwaitTransport
         (request_fulfilled (client_request "get" "/widgets/42" None)
            (mkSessionResult (Some (mkSession "tok")))))
    error401 ltac:(reflexivity)) as H.
  change (starts_recovery _ _) with true in H. cbv iota in H.
  refine (proj1 (H [Tick 1000; Tick 4000] _ _ _)).
  - vm_compute. reflexivity.
  - intros r [H1|[H1|[]]]; discriminate.
Defined.



(** ** Public paths *)

Lemma prefix_append (p rest : string) : String.prefix p (p +:+ rest) = true.
Proof.
  induction p as [|c p IH]; simpl.
  - by destruct rest.
  - destruct (ascii_dec c c); [exact IH|congruence].
Qed.


Lemma prefix_split (p s : string) :
  String.prefix p s = true -> exists rest, s = p +:+ rest.
Proof.
  revert s. induction p as [|c p IH]; intros s H.
  - by exists s.
  - destruct s as [|d s]; simpl in H; [discriminate|].
    destruct (ascii_dec c d) as [->|]; [|discriminate].
    destruct (IH s H) as (rest & ->). by exists rest.
Qed.

Lemma on_public_path_iff (pathname : string) :
  on_public_path pathname = true
  <-> exists p rest, In p PUBLIC_PATHS /\ pathname = p +:+ rest.
Proof.
  unfold on_public_path. rewrite existsb_exists. split.
  - intros (p & Hin & Hp). apply prefix_split in Hp as (rest & ->). eauto.
  - intros (p & rest & Hin & ->). exists p. split; [exact Hin|].
    apply prefix_append.
Qed.

(** C6. A 401 while the current path starts with a public path: the handler
    returns the rejection of the original error and leaves the world as it
    was, so there is no sign-out and no redirect and the flag keeps its
    value; the task of the request is settled with that rejection and
    nothing else changes. *)
Theorem public_path_no_recovery (error : JsError) (w : World) (i : nat) :
  is_unauthorized error = true ->
  on_public_path (or_else (location_pathname w) "/") = true ->
  response_rejected error w = (Returned (Rejected error), w)
  /\ enter_response_rejected i error w = set_task i (Done (Rejected error)) w.
Proof.
  intros Hu Hp.
  rewrite enter_response_rejected_eq, response_rejected_eq.
  unfold starts_recovery. by rewrite Hu, Hp.
Qed.

Lemma public_path_no_recovery_witness :
  response_rejected error401 (initial "/reset-password/abc" "")
  = (Returned (Rejected error401), initial "/reset-password/abc" "").
Proof.
  refine (proj1 (public_path_no_recovery error401
                   (initial "/reset-password/abc" "") 0 _ _)); reflexivity.
Defined.

(** C10. The public-path test is a plain prefix test on characters: a path
    is exempt exactly when it is one of the four entries followed by any
    characters at all, so [/reset-password-extra] and [/signup2] are
    exempt, and on an exempt path a failure starts no recovery.  An empty
    path is replaced by [/] before the test, and [/] is not exempt: a 401
    there starts the recovery when the flag is clear. *)
Theorem public_paths_are_raw_prefixes :
  (forall pathname,
     on_public_path pathname = true
     <-> exists p rest, In p PUBLIC_PATHS /\ pathname = p +:+ rest)
  /\ length PUBLIC_PATHS = 4
  /\ on_public_path "/reset-password-extra" = true
  /\ on_public_path "/signup2" = true
  /\ (forall error w,
        on_public_path (or_else (location_pathname w) "/") = true ->
        response_rejected error w = (Returned (Rejected error), w))
  /\ or_else "" "/" = "/"
  /\ on_public_path "/" = false
  /\ (forall error w,
        location_pathname w = "" \/ location_pathname w = "/" ->
        is_unauthorized error = true ->
        isHandlingUnauthorized w = false ->
        response_rejected error w = (AtSignOut "/", recovering w)).
Proof.
  split; [exact on_public_path_iff|]. repeat split.
  - intros error w Hp. rewrite response_rejected_eq. unfold starts_recovery.
    by rewrite Hp, andb_false_r.
  - intros error w Hloc Hu Hf. rewrite response_rejected_eq.
    unfold starts_recovery. rewrite Hu, Hf.
    by destruct Hloc as [-> | ->].
Qed.

Lemma public_paths_are_raw_prefixes_witness :
  response_rejected error401 (initial "/signup2" "")
  = (Returned (Rejected error401), initial "/signup2" "")
  /\ response_rejected error401 (initial "" "")
     = (AtSignOut "/", recovering (initial "" "")).
Proof.
  destruct public_paths_are_raw_prefixes
    as (_ & _ & _ & _ & Hpub & _ & _ & Hroot).
  split.
  - apply Hpub. reflexivity.
  - apply Hroot; [by left|reflexivity|reflexivity].
Defined.

(** ** The request interceptor *)

Lemma request_fulfilled_eq (config : RequestConfig) (result : SessionResult) :
  request_fulfilled config result =
  match data_session result with
  | Some session =>
      if decide (access_token session = "") then config
      else mkConfig (method config) (url config)
             (<["Authorization" := "Bearer " +:+ access_token session]>
                (headers config))
             (body config)
  | None => config
  end.
Proof.
  unfold request_fulfilled. destruct (data_session result) as [s|]; [|done].
  destruct (access_token s); [done|]. by rewrite decide_False.
Qed.

(** C7. When the session lookup of a request resolves, the request is
    handed to the transport: the turn succeeds, the descriptor sent is
    added to the requests transmitted, for this task, and the task now
    waits for the response to that descriptor; the flag, the timers, the
    sign-out count, the redirects and the console do not change.  With a
    non-empty access token the descriptor sent has the header
    [Authorization] equal to [Bearer ] followed by the token, and is the
    descriptor of the call in every other header and field.  With no
    session, or an empty token, the descriptor sent is the descriptor of
    the call, unmodified; the descriptors the client builds have no
    [Authorization] header, so none is sent. *)
Theorem authorization_header (w : World) (i : nat) (config : RequestConfig)
    (result : SessionResult) :
  tasks w !! i = Some (AwaitGetSession config) ->
  exists sent w',
    step (SessionSettled i (Fulfilled result)) w = Some w'
    /\ transmitted w' = (i, sent) :: transmitted w
    /\ tasks w' = <[i := AwaitTransport sent]> (tasks w)
    /\ tasks w' !! i = Some (AwaitTransport sent)
    /\ recovery_state w' = recovery_state w
    /\ method sent = method config /\ url sent = url config
    /\ body sent = body config
    /\ (forall h, h <> "Authorization" ->
          headers sent !! h = headers config !! h)
    /\ match data_session result with
       | Some session =>
           if decide (access_token session = "") then sent = config
           else headers sent !! "Authorization"
                = Some ("Bearer " +:+ access_token session)
       | None => sent = config
       end
    /\ forall m u b, headers (client_request m u b) !! "Authorization" = None.
Proof.
  intros Hi.
  exists (request_fulfilled config result),
    (transmit i (request_fulfilled config result) w).
  split; [simpl; by rewrite Hi|].
  split; [reflexivity|]. split; [reflexivity|].
  split; [simpl; apply list_lookup_insert_eq; by eapply lookup_lt_Some|].
  split; [reflexivity|].
  rewrite request_fulfilled_eq.
  destruct (data_session result) as [s|]; [|by repeat split].
  destruct (decide (access_token s = "")); [by repeat split|].
  simpl. repeat split; try done.
  - intros h Hh. by rewrite lookup_insert_ne.
  - by rewrite lookup_insert_eq.
Qed.

Lemma authorization_header_witness :
  exists sent w',
    step (SessionSettled 0 (session_of "tok"))
      (after [Call (client_request "get" "/widgets/42" None)]
         (initial "/dashboard" ""))
    = Some w'
    /\ transmitted w' = [(0, sent)]
    /\ tasks w' = [AwaitTransport sent]
    /\ headers sent !! "Authorization" = Some "Bearer tok".
Proof.
  destruct (authorization_header
              (after [Call (client_request "get" "/widgets/42" None)]
                 (initial "/dashboard" ""))
              0 (client_request "get" "/widgets/42" None)
              (mkSessionResult (Some (mkSession "tok"))) ltac:(reflexivity))
    as (sent & w' & Hstep & Hsent & Htasks & _ & _ & _ & _ & _ & _ & Hauth & _).
  exists sent, w'. split; [exact Hstep|].
  split; [exact Hsent|]. split; [exact Htasks|exact Hauth].
Defined.

(** ** The redirect *)

(** C8. The code departs from the claim.  A request fails with 401 while
    the location is [/dashboard?tab=profile]; while the sign-out is pending
    the location becomes [/settings?tab=billing]; when the sign-out has
    settled the handler redirects to
    [/login?returnUrl=%2Fdashboard%3Ftab%3Dbilling].  The claim gives the
    location of the moment the handler was called,
    [%2Fdashboard%3Ftab%3Dprofile]: the path was read then (line 100), the
    query string only after the [await] (line 122), so the return URL is
    the old path with the new query string, which is neither the location
    at the start of the handler nor the location at the redirect. *)
Lemma redirect_mixes_snapshots :
  exists w,
    run navigation_during_signOut (initial "/dashboard" "?tab=profile") = Some w
    /\ hrefAssignments w = ["/login?returnUrl=%2Fdashboard%3Ftab%3Dbilling"]
    /\ hrefAssignments w
       <> ["/login?returnUrl="
           +:+ encodeURIComponent ("/dashboard" +:+ "?tab=profile")]
    /\ hrefAssignments w
       <> ["/login?returnUrl="
           +:+ encodeURIComponent (location_pathname w +:+ location_search w)]
    /\ location_pathname w = "/settings"
    /\ location_search w = "?tab=billing".
Proof.
  eexists. split; [vm_compute; reflexivity|]. split; [reflexivity|].
  split; [vm_compute; discriminate|].
  split; [vm_compute; discriminate|]. split; reflexivity.
Qed.

(** Where the handler takes the parts of the redirect target from: the
    path is the one read when the handler was called ([/] for an empty
    path), the query string the one read when the handler resumes after the
    sign-out has settled.  When the location has not changed in between,
    the target is the one of the location at the call; for [/dashboard] and
    an empty query string it is [/login?returnUrl=%2Fdashboard]. *)
Lemma redirect_target (w0 w : World) (i : nat) (old : Task)
    (error : JsError) (evs : list Event) (r : Settled unit) :
  tasks w0 !! i = Some old ->
  starts_recovery error w0 = true ->
  run evs (enter_response_rejected i error w0) = Some w ->
  (forall r', ~ In (SignOutSettled i r') evs) ->
  (exists w',
     step (SignOutSettled i r) w = Some w'
     /\ hrefAssignments w'
        = ("/login?returnUrl="
             +:+ encodeURIComponent
                   (or_else (location_pathname w0) "/" +:+ location_search w))
          :: hrefAssignments w)
  /\ "/login?returnUrl=" +:+ encodeURIComponent ("/dashboard" +:+ "")
     = "/login?returnUrl=%2Fdashboard".
Proof.
  intros Hi Hgo Hrun Hn. split; [|reflexivity].
  pose proof (enter_lookup_eq i error w0 old Hi) as He. rewrite Hgo in He.
  pose proof (run_awaiting_own _ _ _ _ _ _ Hrun Hn He) as Hw.
  simpl. rewrite Hw, response_rejected_resume_eq.
  eexists. split; reflexivity.
Qed.

Lemma redirect_target_example :
  hrefAssignments
    (after (one_failure ++ [SignOutSettled 0 (Fulfilled tt)])
       (initial "/dashboard" ""))
  = ["/login?returnUrl=%2Fdashboard"].
Proof. vm_compute. reflexivity. Qed.

(** C9. When the sign-out of a recovery fails, the handler logs the
    failure and goes on: it assigns the redirect, schedules the reset, and
    rejects the caller's promise with the original error, not with the
    sign-out error.  The turn always succeeds, and no other task is
    touched. *)
Theorem signOut_failure_is_swallowed (w : World) (i : nat) (error : JsError)
    (pathname : string) (e : JsError) :
  tasks w !! i = Some (AwaitSignOut error pathname) ->
  exists w',
    step (SignOutSettled i (Rejected e)) w = Some w'
    /\ consoleErrors w' = e :: consoleErrors w
    /\ hrefAssignments w'
       = ("/login?returnUrl="
            +:+ encodeURIComponent (pathname +:+ location_search w))
         :: hrefAssignments w
    /\ timers w' = (timers w ++ [clock w + RESET_DELAY])%list
    /\ tasks w' = <[i := Done (Rejected error)]> (tasks w)
    /\ tasks w' !! i = Some (Done (Rejected error))
    /\ signOutCalls w' = signOutCalls w
    /\ isHandlingUnauthorized w' = isHandlingUnauthorized w.
Proof.
  intros Hi. unfold step. rewrite Hi, response_rejected_resume_eq.
  eexists. split; [reflexivity|]. simpl. repeat split.
  apply list_lookup_insert_eq. by eapply lookup_lt_Some.
Qed.

Lemma signOut_failure_is_swallowed_witness :
  exists w',
    step (SignOutSettled 0 (Rejected signOutError))
      (after one_failure (initial "/dashboard" "")) = Some w'
    /\ consoleErrors w' = [signOutError]
    /\ hrefAssignments w' = ["/login?returnUrl=%2Fdashboard"]
    /\ tasks w' !! 0 = Some (Done (Rejected error401)).
Proof.
  destruct (signOut_failure_is_swallowed
              (after one_failure (initial "/dashboard" "")) 0 error401
              "/dashboard" signOutError ltac:(reflexivity))
    as (w' & Hstep & Hlog & Hhref & _ & _ & Htask & _).
  exists w'. repeat split; assumption.
Defined.

(** * Further properties of the client *)

(** ** Invariants of every run *)

(** X1. In every world the module can reach after it is loaded, the flag is set
    exactly when one recovery is under way: either one handler is suspended
    at [signOut()] and no reset is pending, or no handler is suspended and
    one reset timer is pending.  With the flag clear there is neither. *)
Theorem flag_tracks_recovery (pathname search : string) (evs : list Event)
    (w : World) :
  run evs (initial pathname search) = Some w ->
  if isHandlingUnauthorized w
  then (signingOut w = 1 /\ timers w = [])
       \/ (signingOut w = 0 /\ exists due, timers w = [due])
  else signingOut w = 0 /\ timers w = [].
Proof.
  intros Hrun.
  pose proof (consistent_run _ _ _ (consistent_initial pathname search) Hrun)
    as Hc.
  unfold consistent in Hc. destruct (isHandlingUnauthorized w).
  - destruct (timers w) as [|due [|? ?]] eqn:Ht; simpl in Hc.
    + left. split; [lia|reflexivity].
    + right. split; [lia|by exists due].
    + lia.
  - destruct (timers w); simpl in Hc; [split; [lia|reflexivity]|lia].
Qed.

Lemma flag_tracks_recovery_witness :
  signingOut (after three_failures (initial "/settings" "")) = 0
  /\ exists due, timers (after three_failures (initial "/settings" "")) = [due].
Proof.
  pose proof (flag_tracks_recovery "/settings" "" three_failures
                (after three_failures (initial "/settings" ""))
                ltac:(vm_compute; reflexivity)) as H.
  change (isHandlingUnauthorized _) with true in H. cbv iota in H.
  destruct H as [[H _]|H]; [vm_compute in H; discriminate|exact H].
Defined.

Lemma balance_step ev (w w' : World) :
  step ev w = Some w' ->
  signOutCalls w = length (hrefAssignments w) + signingOut w ->
  length (consoleErrors w) <= length (hrefAssignments w) ->
  signOutCalls w' = length (hrefAssignments w') + signingOut w'
  /\ length (consoleErrors w') <= length (hrefAssignments w').
Proof.
  intros Hs Hb Hl.
  assert (Henter : forall i e old, tasks w !! i = Some old ->
            awaits_signOut old = false ->
            let w1 := enter_response_rejected i e w in
            signOutCalls w1 = length (hrefAssignments w1) + signingOut w1
            /\ length (consoleErrors w1) <= length (hrefAssignments w1)).
  { intros i e old Hi Hold. simpl. rewrite enter_response_rejected_eq.
    destruct (starts_recovery e w).
    - pose proof (filter_awaits_insert _ _ _
        (AwaitSignOut e (or_else (location_pathname w) "/")) Hi) as Hn.
      rewrite Hold in Hn. unfold signingOut in *. simpl in *. lia.
    - pose proof (filter_awaits_insert _ _ _ (Done (Rejected e)) Hi) as Hn.
      rewrite Hold in Hn. unfold signingOut in *. simpl in *. lia. }
  destruct ev as [config|j r|j r|j r|k|ms|p s]; simpl in Hs.
  - injection Hs as <-. unfold signingOut in *. simpl.
    rewrite filter_awaits_app. simpl. lia.
  - destruct (tasks w !! j) as [[c| | |]|] eqn:Hj; try discriminate.
    destruct r as [r|e]; injection Hs as <-; [|by eapply Henter].
    pose proof (filter_awaits_insert _ _ _
      (AwaitTransport (request_fulfilled c r)) Hj) as Hn.
    unfold signingOut in *. simpl in *. lia.
  - destruct (tasks w !! j) as [[|c| |]|] eqn:Hj; try discriminate.
    destruct r as [r|e]; injection Hs as <-; [|by eapply Henter].
    pose proof (filter_awaits_insert _ _ _
      (Done (Fulfilled (response_fulfilled r))) Hj) as Hn.
    unfold signingOut in *. simpl in *. lia.
  - destruct (tasks w !! j) as [[| |e p|]|] eqn:Hj; try discriminate.
    rewrite response_rejected_resume_eq in Hs. injection Hs as <-.
    pose proof (filter_awaits_insert _ _ _ (Done (Rejected e)) Hj) as Hn.
    unfold signingOut in *. simpl in *. destruct r; simpl; split; lia.
  - destruct (timers w !! k); try discriminate.
    destruct (_ <=? _)%nat; try discriminate. injection Hs as <-.
    unfold signingOut in *. simpl. lia.
  - injection Hs as <-. unfold signingOut in *. simpl. lia.
  - injection Hs as <-. unfold signingOut in *. simpl. lia.
Qed.

(** X2. Sign-outs and redirects go in pairs.  In every reachable world the
    number of [signOut()] calls is the number of redirects assigned plus the
    number of handlers still waiting for their sign-out: no redirect
    happens without a sign-out before it, and every sign-out that has
    settled was followed by exactly one redirect.  A sign-out failure is
    logged at most once per redirect. *)
Theorem signOut_then_redirect (pathname search : string) (evs : list Event)
    (w : World) :
  run evs (initial pathname search) = Some w ->
  signOutCalls w = length (hrefAssignments w) + signingOut w
  /\ length (consoleErrors w) <= length (hrefAssignments w).
Proof.
  assert (Hgen : forall evs w0 w,
    run evs w0 = Some w ->
    signOutCalls w0 = length (hrefAssignments w0) + signingOut w0 ->
    length (consoleErrors w0) <= length (hrefAssignments w0) ->
    signOutCalls w = length (hrefAssignments w) + signingOut w
    /\ length (consoleErrors w) <= length (hrefAssignments w)).
  { clear. induction evs as [|ev evs IH]; intros w0 w Hr Hb Hl; simpl in Hr.
    - injection Hr as <-. by split.
    - destruct (step ev w0) as [w1|] eqn:Hs; [|discriminate].
      destruct (balance_step _ _ _ Hs Hb Hl). eauto. }
  intros Hrun. apply (Hgen _ _ _ Hrun); [reflexivity|simpl; lia].
Qed.

Lemma signOut_then_redirect_witness :
  signOutCalls (after failures_during_cooldown (initial "/dashboard" ""))
  = length (hrefAssignments
              (after failures_during_cooldown (initial "/dashboard" "")))
    + 0.
Proof.
  exact (proj1 (signOut_then_redirect "/dashboard" ""
                  failures_during_cooldown
                  (after failures_during_cooldown (initial "/dashboard" ""))
                  ltac:(vm_compute; reflexivity))).
Defined.

Lemma sent_once_run evs (w0 w : World) :
  run evs w0 = Some w ->
  sent_left_interceptor w0 -> NoDup (map fst (transmitted w0)) ->
  sent_left_interceptor w /\ NoDup (map fst (transmitted w)).
Proof.
  revert w0. induction evs as [|ev evs IH]; intros w0 Hr Hinv Hnd; simpl in Hr.
  - injection Hr as <-. by split.
  - destruct (step ev w0) as [w1|] eqn:Hs; [|discriminate].
    apply (IH w1 Hr); [by eapply sent_left_interceptor_step|].
    destruct (step_transmitted _ _ _ Hs) as [->|(j & c & r & _ & Hj & ->)];
      [exact Hnd|].
    simpl. apply NoDup_cons_2; [|exact Hnd].
    intros Hin. apply list_elem_of_In, in_map_iff in Hin
      as ([j' c'] & Hfst & Hin).
    simpl in Hfst. subst j'.
    destruct (Hinv j c' Hin) as (t & Ht & Hno).
    rewrite Hj in Ht. injection Ht as <-. discriminate.
Qed.

Lemma sent_once_initial pathname search evs (w : World) :
  run evs (initial pathname search) = Some w ->
  sent_left_interceptor w /\ NoDup (map fst (transmitted w)).
Proof.
  intros Hrun. apply (sent_once_run _ _ _ Hrun).
  - intros ? ? [].
  - apply NoDup_nil_2.
Qed.

(** X3. The client never sends a request twice: in every reachable world each
    task has at most one request handed to the transport, and only tasks
    that exist have one. *)
Theorem each_request_sent_once (pathname search : string) (evs : list Event)
    (w : World) :
  run evs (initial pathname search) = Some w ->
  NoDup (map fst (transmitted w))
  /\ forall i c, In (i, c) (transmitted w) -> i < length (tasks w).
Proof.
  intros Hrun.
  destruct (sent_once_initial _ _ _ _ Hrun) as [Hinv Hnd].
  split; [exact Hnd|]. intros i c Hin.
  destruct (Hinv i c Hin) as (t & Ht & _). by eapply lookup_lt_Some.
Qed.

Lemma each_request_sent_once_witness :
  NoDup (map fst (transmitted (after three_failures (initial "/settings" "")))).
Proof.
  exact (proj1 (each_request_sent_once "/settings" "" three_failures
                  (after three_failures (initial "/settings" ""))
                  ltac:(vm_compute; reflexivity))).
Defined.

Lemma calm_step ev (w w' : World) :
  isHandlingUnauthorized w = false -> signingOut w = 0 -> timers w = [] ->
  step ev w = Some w' ->
  (forall c, calls_handler ev w = Some c -> wants_recovery c = false) ->
  recovery_state w' = recovery_state w /\ signingOut w' = 0.
Proof.
  intros Hf Hz Htm Hs Hcall.
  assert (Henter : forall i e old, tasks w !! i = Some old ->
            awaits_signOut old = false ->
            wants_recovery
              (mkCall e (or_else (location_pathname w) "/") (clock w)) = false ->
            recovery_state (enter_response_rejected i e w) = recovery_state w
            /\ signingOut (enter_response_rejected i e w) = 0).
  { intros i e old Hi Hold Hw. rewrite enter_response_rejected_eq.
    unfold starts_recovery. unfold wants_recovery in Hw. simpl in Hw.
    rewrite Hw. simpl.
    pose proof (signingOut_set_task w i old (Done (Rejected e)) Hi) as Hn.
    rewrite Hold in Hn. simpl in Hn. split; [reflexivity|lia]. }
  destruct ev as [config|j r|j r|j r|k|ms|p s]; simpl in Hs, Hcall.
  - injection Hs as <-. unfold signingOut in *. simpl.
    rewrite filter_awaits_app. simpl. split; [reflexivity|lia].
  - destruct (tasks w !! j) as [[c| | |]|] eqn:Hj; try discriminate.
    destruct r as [r|e]; injection Hs as <-; [|by eapply Henter; eauto].
    pose proof (filter_awaits_insert _ _ _
      (AwaitTransport (request_fulfilled c r)) Hj) as Hn.
    unfold signingOut in *. simpl in *. split; [reflexivity|lia].
  - destruct (tasks w !! j) as [[|c| |]|] eqn:Hj; try discriminate.
    destruct r as [r|e]; injection Hs as <-; [|by eapply Henter; eauto].
    pose proof (filter_awaits_insert _ _ _
      (Done (Fulfilled (response_fulfilled r))) Hj) as Hn.
    unfold signingOut in *. simpl in *. split; [reflexivity|lia].
  - destruct (tasks w !! j) as [[| |e p|]|] eqn:Hj; try discriminate.
    pose proof (signingOut_pos w j _ _ Hj). lia.
  - rewrite Htm in Hs. discriminate.
  - injection Hs as <-. by split.
  - injection Hs as <-. by split.
Qed.

(** X4. Failures that are not a 401, and 401s on public pages, never sign the
    user out.  From a world where no recovery is under way, a run in which
    no handler call is a 401 off the public paths leaves the flag, the
    timers, the sign-out count, the redirects and the console as they
    were, whatever the status codes and however the requests interleave. *)
Theorem no_recovery_without_cause (w0 w : World) (evs : list Event) :
  consistent w0 ->
  isHandlingUnauthorized w0 = false ->
  run evs w0 = Some w ->
  forallb (fun c => negb (wants_recovery c)) (handler_calls evs w0) = true ->
  recovery_state w = recovery_state w0.
Proof.
  intros Hc Hf.
  assert (Hz : signingOut w0 = 0 /\ timers w0 = []).
  { unfold consistent in Hc. rewrite Hf in Hc.
    destruct (timers w0); simpl in Hc; [split; [lia|reflexivity]|lia]. }
  destruct Hz as [Hz Htm]. clear Hc.
  revert w0 Hf Hz Htm. induction evs as [|ev evs IH];
    intros w0 Hf Hz Htm Hrun Hall; simpl in *.
  - by injection Hrun as <-.
  - destruct (step ev w0) as [w1|] eqn:Hs; [|discriminate].
    destruct (calm_step _ _ _ Hf Hz Htm Hs) as [Heq Hz1].
    { intros c Hcall. rewrite Hcall in Hall. simpl in Hall.
      apply andb_prop in Hall as [Hc _]. by apply negb_true_iff in Hc. }
    rewrite <- Heq. unfold recovery_state in Heq.
    injection Heq as Hf1 Htm1 _ _ _.
    apply IH; [congruence|exact Hz1|congruence|exact Hrun|].
    destruct (calls_handler ev w0); [|exact Hall].
    simpl in Hall. by apply andb_prop in Hall as [_ ?].
Qed.

Lemma no_recovery_without_cause_witness :
  recovery_state (after harmless_failures (initial "/dashboard" ""))
  = (false, [], 0, [], []).
Proof.
  exact (no_recovery_without_cause (initial "/dashboard" "")
           (after harmless_failures (initial "/dashboard" ""))
           harmless_failures ltac:(reflexivity) ltac:(reflexivity)
           ltac:(vm_compute; reflexivity) ltac:(vm_compute; reflexivity)).
Defined.

Lemma suppressed_step ev (w w' : World) :
  isHandlingUnauthorized w = true -> not_TimerFired ev = true ->
  step ev w = Some w' ->
  isHandlingUnauthorized w' = true /\ signOutCalls w' = signOutCalls w.
Proof.
  intros Hf Hev Hs.
  assert (Henter : forall i e,
            isHandlingUnauthorized (enter_response_rejected i e w) = true
            /\ signOutCalls (enter_response_rejected i e w) = signOutCalls w).
  { intros i e. rewrite enter_response_rejected_eq. unfold starts_recovery.
    rewrite Hf, andb_false_r. by split. }
  destruct ev as [config|j r|j r|j r|k|ms|p s]; simpl in Hs; try discriminate.
  - injection Hs as <-. by split.
  - destruct (tasks w !! j) as [[c| | |]|]; try discriminate.
    destruct r as [r|e]; injection Hs as <-; [by split|apply Henter].
  - destruct (tasks w !! j) as [[|c| |]|]; try discriminate.
    destruct r as [r|e]; injection Hs as <-; [by split|apply Henter].
  - destruct (tasks w !! j) as [[| |e p|]|]; try discriminate.
    rewrite response_rejected_resume_eq in Hs. injection Hs as <-. by split.
  - injection Hs as <-. by split.
  - injection Hs as <-. by split.
Qed.

(** X5. While the flag is set, no further sign-out is started, however many
    requests fail with 401 and however long the sign-out or the timer
    takes: in a run in which no timer fires, the flag stays set and the
    number of [signOut()] calls does not change. *)
Theorem suppressed_until_timer (w0 w : World) (evs : list Event) :
  isHandlingUnauthorized w0 = true ->
  run evs w0 = Some w ->
  forallb not_TimerFired evs = true ->
  isHandlingUnauthorized w = true /\ signOutCalls w = signOutCalls w0.
Proof.
  revert w0. induction evs as [|ev evs IH]; intros w0 Hf Hrun Hn; simpl in *.
  - injection Hrun as <-. by split.
  - destruct (step ev w0) as [w1|] eqn:Hs; [|discriminate].
    apply andb_prop in Hn as [Hev Hn].
    destruct (suppressed_step _ _ _ Hf Hev Hs) as [Hf1 Hs1].
    destruct (IH w1 Hf1 Hrun Hn) as [? ?]. split; [assumption|congruence].
Qed.

Lemma suppressed_until_timer_witness :
  signOutCalls (after failures_during_cooldown (initial "/dashboard" "")) = 1.
Proof.
  exact (proj2 (suppressed_until_timer
                  (after one_failure (initial "/dashboard" ""))
                  (after failures_during_cooldown (initial "/dashboard" ""))
                  (skipn 3 failures_during_cooldown)
                  ltac:(reflexivity) ltac:(vm_compute; reflexivity)
                  ltac:(reflexivity))).
Defined.

(** ** The return URL *)

Lemma hex_digit_unreserved (n : nat) : is_unreserved (hex_digit n) = true.
Proof. do 16 (destruct n as [|n]; [reflexivity|]). reflexivity. Qed.

Lemma all_chars_app ok (a b : string) :
  all_chars ok (a +:+ b) = all_chars ok a && all_chars ok b.
Proof.
  induction a as [|c a IH]; simpl; [reflexivity|].
  by rewrite IH, andb_assoc.
Qed.

Lemma encodeURIComponent_safe (s : string) :
  all_chars url_safe (encodeURIComponent s) = true.
Proof.
  induction s as [|c s IH]; simpl; [reflexivity|].
  rewrite all_chars_app, IH, andb_true_r.
  destruct (is_unreserved c) eqn:Hc; simpl.
  - unfold url_safe. by rewrite Hc.
  - unfold url_safe. rewrite !hex_digit_unreserved. reflexivity.
Qed.

Lemma is_login_redirect_step ev (w w' : World) :
  step ev w = Some w' ->
  Forall is_login_redirect (hrefAssignments w) ->
  Forall is_login_redirect (hrefAssignments w').
Proof.
  intros Hs Hall.
  destruct ev as [config|j r|j r|j r|k|ms|p s]; simpl in Hs.
  - by injection Hs as <-.
  - destruct (tasks w !! j) as [[c| | |]|]; try discriminate.
    destruct r as [r|e]; injection Hs as <-; [exact Hall|].
    rewrite enter_response_rejected_eq. by destruct (starts_recovery _ _).
  - destruct (tasks w !! j) as [[|c| |]|]; try discriminate.
    destruct r as [r|e]; injection Hs as <-; [exact Hall|].
    rewrite enter_response_rejected_eq. by destruct (starts_recovery _ _).
  - destruct (tasks w !! j) as [[| |e p|]|]; try discriminate.
    rewrite response_rejected_resume_eq in Hs. injection Hs as <-. simpl.
    constructor; [|exact Hall].
    eexists. split; [reflexivity|]. apply encodeURIComponent_safe.
  - destruct (timers w !! k); try discriminate.
    destruct (_ <=? _)%nat; try discriminate. by injection Hs as <-.
  - by injection Hs as <-.
  - by injection Hs as <-.
Qed.

(** X6. Every redirect the module ever assigns goes to the login page and
    carries exactly one parameter: the target is [/login?returnUrl=]
    followed by a value made of unreserved characters and percent escapes
    only.  No [&], [#], [?], [=], [/], [+] or space from the current
    location reaches the target unescaped, so the location cannot add
    parameters or a fragment to the login URL. *)
Theorem redirects_are_login_urls (pathname search : string)
    (evs : list Event) (w : World) :
  run evs (initial pathname search) = Some w ->
  Forall is_login_redirect (hrefAssignments w)
  /\ forallb (fun c => negb (url_safe c))
       [ "&"; "#"; "?"; "="; "/"; "+"; " " ]%char = true.
Proof.
  intros Hrun. split; [|reflexivity].
  assert (Hgen : forall evs w0 w, run evs w0 = Some w ->
            Forall is_login_redirect (hrefAssignments w0) ->
            Forall is_login_redirect (hrefAssignments w)).
  { clear. induction evs as [|ev evs IH]; intros w0 w Hr Hall; simpl in Hr.
    - by injection Hr as <-.
    - destruct (step ev w0) as [w1|] eqn:Hs; [|discriminate].
      eauto using is_login_redirect_step. }
  apply (Hgen _ _ _ Hrun). constructor.
Qed.

Lemma redirects_are_login_urls_witness :
  Forall is_login_redirect
    (hrefAssignments
       (after navigation_during_signOut (initial "/a b" "?x=1&y=2#z"))).
Proof.
  exact (proj1 (redirects_are_login_urls "/a b" "?x=1&y=2#z"
                  navigation_during_signOut
                  (after navigation_during_signOut
                     (initial "/a b" "?x=1&y=2#z"))
                  ltac:(vm_compute; reflexivity))).
Defined.

Lemma byte_of_hex_escape (c : ascii) :
  byte_of_hex (hex_digit (nat_of_ascii c / 16))
    (hex_digit (nat_of_ascii c mod 16)) = c.
Proof. destruct c as [[] [] [] [] [] [] [] []]; reflexivity. Qed.

Lemma percent_not_unreserved : is_unreserved "%" = false.
Proof. reflexivity. Qed.

Lemma percent_escape_inj (c d : ascii) (r1 r2 : string) :
  percent_escape c +:+ r1 = percent_escape d +:+ r2 -> c = d /\ r1 = r2.
Proof.
  unfold percent_escape. cbn [String.append]. intros H.
  injection H as Hhi Hlo Hr. split; [|exact Hr].
  rewrite <- (byte_of_hex_escape c), <- (byte_of_hex_escape d).
  f_equal; [exact Hhi|exact Hlo].
Qed.

(** X7. [encodeURIComponent] loses nothing: two strings with the same encoding
    are the same string, so the return URL determines the path and query
    string it was built from. *)
Theorem encodeURIComponent_injective (a b : string) :
  encodeURIComponent a = encodeURIComponent b -> a = b.
Proof.
  revert b. induction a as [|c a IH]; intros [|d b] H;
    cbn [encodeURIComponent] in H.
  - reflexivity.
  - destruct (is_unreserved d); discriminate.
  - destruct (is_unreserved c); discriminate.
  - destruct (is_unreserved c) eqn:Hc, (is_unreserved d) eqn:Hd.
    + injection H as -> H. f_equal. by apply IH.
    + injection H as -> _. rewrite percent_not_unreserved in Hc. discriminate.
    + injection H as <- _. rewrite percent_not_unreserved in Hd. discriminate.
    + apply percent_escape_inj in H as [-> H]. f_equal. by apply IH.
Qed.

Lemma encodeURIComponent_injective_witness :
  "/a?b" = "/a?b".
Proof.
  exact (encodeURIComponent_injective "/a?b" "/a?b" ltac:(reflexivity)).
Defined.

(** ** Requests and their credentials *)

Lemma issued_app (evs1 evs2 : list Event) :
  issued (evs1 ++ evs2) = (issued evs1 ++ issued evs2)%list.
Proof.
  induction evs1 as [|ev evs1 IH]; [reflexivity|].
  destruct ev; simpl; by rewrite ?IH.
Qed.

Lemma holds_issued_step ev cs (w w' : World) :
  holds_issued cs w -> step ev w = Some w' ->
  holds_issued (cs ++ issued [ev]) w'.
Proof.
  intros [Hlen Hcfg] Hs.
  assert (Hins : forall j t, awaits_session t = false ->
            holds_issued (cs ++ []) (set_task j t w)).
  { intros j t Ht. rewrite app_nil_r. split; simpl.
    - by rewrite length_insert.
    - intros i config Hi. destruct (decide (j = i)) as [->|Hne].
      + assert (i < length (tasks w)) as Hlt.
        { apply lookup_lt_Some in Hi. by rewrite length_insert in Hi. }
        rewrite list_lookup_insert_eq in Hi by exact Hlt.
        injection Hi as ->. discriminate.
      + rewrite list_lookup_insert_ne in Hi by exact Hne. by apply Hcfg. }
  assert (Henter : forall j e,
            holds_issued (cs ++ []) (enter_response_rejected j e w)).
  { intros j e. rewrite enter_response_rejected_eq.
    destruct (starts_recovery e w); [|by apply Hins].
    apply (Hins j (AwaitSignOut e (or_else (location_pathname w) "/"))
             eq_refl). }
  destruct ev as [config|j r|j r|j r|k|ms|p s]; simpl in Hs; simpl issued.
  - injection Hs as <-. split; simpl.
    + rewrite !length_app. simpl. lia.
    + intros i c Hi. destruct (decide (i < length (tasks w))) as [Hlt|Hge].
      * rewrite lookup_app_l in Hi by exact Hlt.
        rewrite lookup_app_l by lia. by apply Hcfg.
      * assert (i = length (tasks w)) as ->.
        { apply lookup_lt_Some in Hi. rewrite length_app in Hi.
          simpl in Hi. lia. }
        rewrite list_lookup_middle in Hi by reflexivity.
        injection Hi as ->. by rewrite Hlen, list_lookup_middle.
  - destruct (tasks w !! j) as [[c| | |]|]; try discriminate.
    destruct r as [r|e]; injection Hs as <-; [|apply Henter].
    apply (Hins j (AwaitTransport (request_fulfilled c r)) eq_refl).
  - destruct (tasks w !! j) as [[|c| |]|]; try discriminate.
    destruct r as [r|e]; injection Hs as <-; [|apply Henter].
    apply (Hins j (Done (Fulfilled (response_fulfilled r))) eq_refl).
  - destruct (tasks w !! j) as [[| |e p|]|]; try discriminate.
    rewrite response_rejected_resume_eq in Hs. injection Hs as <-.
    apply (Hins j (Done (Rejected e)) eq_refl).
  - destruct (timers w !! k); try discriminate.
    destruct (_ <=? _)%nat; try discriminate. injection Hs as <-.
    rewrite app_nil_r. by split.
  - injection Hs as <-. rewrite app_nil_r. by split.
  - injection Hs as <-. rewrite app_nil_r. by split.
Qed.

Lemma holds_issued_run evs cs (w w' : World) :
  holds_issued cs w -> run evs w = Some w' ->
  holds_issued (cs ++ issued evs) w'.
Proof.
  revert cs w. induction evs as [|ev evs IH]; intros cs w Hh Hr; simpl in Hr.
  - injection Hr as <-. by rewrite app_nil_r.
  - destruct (step ev w) as [w1|] eqn:Hs; [|discriminate].
    pose proof (IH _ _ (holds_issued_step _ _ _ _ Hh Hs) Hr) as H.
    rewrite <- app_assoc, <- issued_app in H. exact H.
Qed.

Lemma transmitted_grows evs (w w' : World) x :
  run evs w = Some w' -> In x (transmitted w) -> In x (transmitted w').
Proof.
  revert w. induction evs as [|ev evs IH]; intros w Hr Hin; simpl in Hr.
  - by injection Hr as <-.
  - destruct (step ev w) as [w1|] eqn:Hs; [|discriminate].
    apply (IH w1 Hr).
    destruct (step_transmitted _ _ _ Hs) as [->|(? & ? & ? & _ & _ & ->)];
      [exact Hin|by right].
Qed.

Lemma NoDup_fst_unique {A} (l : list (nat * A)) i (a b : A) :
  NoDup (map fst l) -> In (i, a) l -> In (i, b) l -> a = b.
Proof.
  induction l as [|[j c] l IH]; intros Hnd Ha Hb; [destruct Ha|].
  simpl in Hnd. apply NoDup_cons in Hnd as [Hnot Hnd].
  assert (Hmem : forall x, In (j, x) l -> False).
  { intros x Hx. apply Hnot, list_elem_of_In, in_map_iff.
    by exists (j, x). }
  destruct Ha as [Ha|Ha], Hb as [Hb|Hb].
  - congruence.
  - injection Ha as -> _. exfalso. eauto.
  - injection Hb as -> _. exfalso. eauto.
  - by apply IH.
Qed.

(** X8. Every request goes out with the credential looked up for that very
    request.  When the session lookup of task [i] resolves with [result],
    the one request ever handed to the transport for task [i] is the
    descriptor the task was issued with, passed through the request
    interceptor with [result]: nothing is cached from one request to the
    next, whatever lookups of other requests resolve before or after. *)
Theorem sent_with_own_session (pathname search : string)
    (evs1 evs2 : list Event) (i : nat) (result : SessionResult) (w : World) :
  run (evs1 ++ SessionSettled i (Fulfilled result) :: evs2)
      (initial pathname search) = Some w ->
  exists config,
    issued evs1 !! i = Some config
    /\ In (i, request_fulfilled config result) (transmitted w)
    /\ forall c, In (i, c) (transmitted w) ->
         c = request_fulfilled config result.
Proof.
  intros Hrun.
  destruct (sent_once_initial _ _ _ _ Hrun) as [_ Hnd].
  apply run_app in Hrun as (w1 & Hr1 & Hr2). simpl in Hr2.
  destruct (tasks w1 !! i) as [[config| | |]|] eqn:Hi; try discriminate.
  assert (Hh : holds_issued ([] ++ issued evs1) w1).
  { eapply holds_issued_run; [|exact Hr1]. split; [reflexivity|].
    intros ? ? H. discriminate. }
  destruct Hh as [_ Hcfg]. exists config. split; [by apply Hcfg|].
  assert (Hin : In (i, request_fulfilled config result) (transmitted w)).
  { eapply transmitted_grows; [exact Hr2|]. by left. }
  split; [exact Hin|]. intros c Hc. eapply NoDup_fst_unique; eauto.
Qed.

Lemma sent_with_own_session_witness :
  exists config,
    issued (firstn 3 rotating_token) !! 0 = Some config
    /\ In (0, request_fulfilled config
                (mkSessionResult (Some (mkSession "old"))))
         (transmitted (after rotating_token (initial "/dashboard" ""))).
Proof.
  destruct (sent_with_own_session "/dashboard" "" (firstn 3 rotating_token)
              [] 0 (mkSessionResult (Some (mkSession "old")))
              (after rotating_token (initial "/dashboard" ""))
              ltac:(vm_compute; reflexivity))
    as (config & Hc & Hin & _).
  exists config. by split.
Defined.

(** ** Successful responses *)

(** X9. A response the transport accepts reaches the caller as it is, and
    stays: in any run, once the transport has fulfilled the request of task
    [i] with [r], the caller's promise is fulfilled with [r] for good, and
    the turn in which it arrived changed neither the flag nor the timers
    nor the sign-out count nor any redirect. *)
Theorem response_reaches_caller (w1 w2 w : World) (evs : list Event)
    (i : nat) (r : Response) :
  step (TransportSettled i (Fulfilled r)) w1 = Some w2 ->
  run evs w2 = Some w ->
  tasks w !! i = Some (Done (Fulfilled r))
  /\ recovery_state w2 = recovery_state w1.
Proof.
  intros Hs Hr2. simpl in Hs.
  destruct (tasks w1 !! i) as [[|c| |]|] eqn:Hi; try discriminate.
  injection Hs as <-. split; [|reflexivity].
  eapply run_done; [exact Hr2|]. by eapply set_task_lookup_eq.
Qed.

Lemma response_reaches_caller_witness :
  tasks (after (lookup_failure ++ [Tick 10]) (initial "/dashboard" "")) !! 0
  = Some (Done (Fulfilled (mkResponse 200 "{}"))).
Proof.
  refine (proj1 (response_reaches_caller
                   (after (firstn 4 lookup_failure) (initial "/dashboard" ""))
                   (after lookup_failure (initial "/dashboard" ""))
                   (after (lookup_failure ++ [Tick 10])
                      (initial "/dashboard" ""))
                   [Tick 10] 0 (mkResponse 200 "{}")
                   _ _)); vm_compute; reflexivity.
Defined.

(** ** After the cooldown *)

(** X10. Once the reset timer is due it can fire, and the module is back where
    it started: the flag is clear, nothing is pending, and the next 401 off
    the public paths starts a second recovery with a second sign-out. *)
Theorem recovery_rearms (w : World) (due : nat) (i : nat)
    (config : RequestConfig) (error : JsError) :
  cooling due w ->
  due <= clock w ->
  tasks w !! i = Some (AwaitTransport config) ->
  is_unauthorized error = true ->
  on_public_path (or_else (location_pathname w) "/") = false ->
  exists w1 w2,
    step (TimerFired 0) w = Some w1
    /\ isHandlingUnauthorized w1 = false
    /\ consistent w1
    /\ step (TransportSettled i (Rejected error)) w1 = Some w2
    /\ isHandlingUnauthorized w2 = true
    /\ signOutCalls w2 = S (signOutCalls w)
    /\ tasks w2 !! i
       = Some (AwaitSignOut error (or_else (location_pathname w) "/")).
Proof.
  intros (Hf & Htm & Hz) Hdue Hi Hu Hp.
  exists (fire 0 w). eexists. simpl. rewrite Htm. simpl.
  replace (due <=? clock w)%nat with true by (symmetry; by apply Nat.leb_le).
  split; [reflexivity|]. split; [reflexivity|]. split.
  { unfold consistent, signingOut in *. simpl. rewrite Htm. simpl. lia. }
  rewrite Hi. rewrite enter_response_rejected_eq.
  unfold starts_recovery. simpl. rewrite Hu, Hp. simpl.
  split; [reflexivity|]. simpl. repeat split.
  apply list_lookup_insert_eq. by eapply lookup_lt_Some.
Qed.

Lemma recovery_rearms_witness :
  exists w2,
    run [ TimerFired 0; TransportSettled 1 (Rejected error401) ]
      (after cooled_down (initial "/dashboard" "")) = Some w2
    /\ signOutCalls w2 = 2.
Proof.
  destruct (recovery_rearms (after cooled_down (initial "/dashboard" ""))
              1000 1 (client_request "get" "/v1/integrations/" None) error401)
    as (w1 & w2 & H1 & _ & _ & H2 & _ & Hn & _).
  - repeat split.
  - vm_compute. lia.
  - reflexivity.
  - reflexivity.
  - reflexivity.
  - exists w2. cbn [run]. rewrite H1, H2. split; [reflexivity|exact Hn].
Defined.

(** ** The request interceptor, continued *)

(** X11. The request interceptor only ever adds or replaces the
    [Authorization] header.  It removes no header, so a descriptor that
    already carries an [Authorization] header keeps it when there is no
    session; with a token the header is replaced, the latest token wins,
    and passing a descriptor through twice with the same session is the
    same as once. *)
Theorem request_interceptor_headers (config : RequestConfig)
    (result : SessionResult) :
  (forall h, is_Some (headers config !! h) ->
     is_Some (headers (request_fulfilled config result) !! h))
  /\ request_fulfilled (request_fulfilled config result) result
     = request_fulfilled config result
  /\ (forall token,
        token <> "" ->
        headers (request_fulfilled (request_fulfilled config result)
                   (mkSessionResult (Some (mkSession token))))
          !! "Authorization"
        = Some ("Bearer " +:+ token))
  /\ (forall v,
        headers config !! "Authorization" = Some v ->
        data_session result = None ->
        headers (request_fulfilled config result) !! "Authorization" = Some v).
Proof.
  assert (Hlatest : forall c token, token <> "" ->
            headers (request_fulfilled c
                       (mkSessionResult (Some (mkSession token))))
              !! "Authorization" = Some ("Bearer " +:+ token)).
  { intros c [|a token] Hne; [congruence|]. simpl. apply lookup_insert_eq. }
  split; [|split; [|split]]; [| |by auto|].
  - intros h Hh. unfold request_fulfilled.
    destruct (data_session result) as [[[|a token]]|]; simpl; try exact Hh.
    destruct (decide ("Authorization" = h)) as [<-|Hne].
    + rewrite lookup_insert_eq. eauto.
    + by rewrite lookup_insert_ne.
  - unfold request_fulfilled.
    destruct (data_session result) as [[[|a token]]|]; simpl; try reflexivity.
    by rewrite insert_insert_eq.
  - intros v Hv Hnone. unfold request_fulfilled. by rewrite Hnone.
Qed.

Lemma request_interceptor_headers_witness :
  headers (request_fulfilled
             (request_fulfilled healthCheck_request
                (mkSessionResult (Some (mkSession "old"))))
             (mkSessionResult (Some (mkSession "new"))))
    !! "Authorization"
  = Some "Bearer new".
Proof.
  destruct (request_interceptor_headers healthCheck_request
              (mkSessionResult (Some (mkSession "old"))))
    as (_ & _ & H & _).
  apply (H "new"). discriminate.
Defined.

(** ** The resource methods *)

(** X12. [healthCheck] never rejects.  Whatever the outcome of its request it
    returns a boolean, which is [true] exactly when the request was
    fulfilled with status 200: any other accepted status, and every
    failure, gives [false].  Outside development mode it leaves the world
    as it is; in development mode a failure is logged and nothing else
    changes. *)
Theorem healthCheck_never_rejects (dev : bool) (outcome : Settled Response)
    (w : World) :
  exists b,
    (healthCheck_result dev outcome w).1 = Fulfilled b
    /\ (b = true <-> exists r, outcome = Fulfilled r /\ status r = 200%Z)
    /\ (dev = false -> (healthCheck_result dev outcome w).2 = w)
    /\ (forall r, outcome = Fulfilled r ->
          (healthCheck_result dev outcome w).2 = w)
    /\ (forall e, dev = true -> outcome = Rejected e ->
          consoleErrors (healthCheck_result dev outcome w).2
            = e :: consoleErrors w
          /\ recovery_state (healthCheck_result dev outcome w).2
             = (isHandlingUnauthorized w, timers w, signOutCalls w,
                hrefAssignments w, e :: consoleErrors w)).
Proof.
  destruct outcome as [r|e].
  - exists (status r =? 200)%Z. simpl.
    split; [reflexivity|]. split; [|split; [done|split; [done|]]].
    + split.
      * intros Hb. exists r. split; [reflexivity|]. by apply Z.eqb_eq.
      * intros (r' & Hr' & Hr). injection Hr' as <-. by apply Z.eqb_eq.
    + intros e _ He. discriminate.
  - exists false.
    split; [by destruct dev|]. split; [|split; [|split]].
    + split; [discriminate|]. intros (r & Hr & _). discriminate.
    + by intros ->.
    + intros r Hr. discriminate.
    + intros e' -> He. injection He as <-. by split.
Qed.

Lemma healthCheck_never_rejects_witness :
  (healthCheck_result false (Fulfilled (mkResponse 204 ""))
     (initial "/dashboard" "")).1 = Fulfilled false
  /\ (healthCheck_result false (Rejected error401)
        (initial "/dashboard" "")).2 = initial "/dashboard" "".
Proof.
  split.
  - destruct (healthCheck_never_rejects false
                (Fulfilled (mkResponse 204 "")) (initial "/dashboard" ""))
      as (b & Hb & Hiff & _).
    rewrite Hb. destruct b; [|reflexivity].
    destruct (proj1 Hiff eq_refl) as (r & [= <-] & Hr). discriminate.
  - destruct (healthCheck_never_rejects false (Rejected error401)
                (initial "/dashboard" "")) as (_ & _ & _ & H & _).
    by apply H.
Defined.

(** X13. A health probe that is answered with 401 signs the user out like any
    other request.  When the probe's request fails with a 401 off the
    public paths while the flag is clear, [signOut()] is called; the probe
    does not return while the sign-out is pending; when the sign-out has
    settled the redirect to the login page is assigned and the probe
    returns [false]. *)
Theorem unauthorized_probe_signs_out (w : World) (i : nat)
    (session : SessionResult) (error : JsError) (signedOut : Settled unit)
    (dev : bool) :
  tasks w !! i
    = Some (AwaitTransport (request_fulfilled healthCheck_request session)) ->
  starts_recovery error w = true ->
  exists w1 w2 w3,
    step (TransportSettled i (Rejected error)) w = Some w1
    /\ signOutCalls w1 = S (signOutCalls w)
    /\ healthCheck_of dev i w1 = None
    /\ step (SignOutSettled i signedOut) w1 = Some w2
    /\ hrefAssignments w2
       = ("/login?returnUrl="
            +:+ encodeURIComponent
                  (or_else (location_pathname w) "/" +:+ location_search w))
         :: hrefAssignments w
    /\ healthCheck_of dev i w2 = Some (Fulfilled false, w3).
Proof.
  intros Hi Hgo.
  pose proof (enter_lookup_eq i error w _ Hi) as H1. rewrite Hgo in H1.
  destruct (signOut_settles _ _ _ _ signedOut H1) as (w2 & Hs2 & H2).
  exists (enter_response_rejected i error w), w2.
  exists (healthCheck_result dev (Rejected error) w2).2.
  split; [simpl; by rewrite Hi|].
  split; [by rewrite enter_response_rejected_eq, Hgo|].
  split; [unfold healthCheck_of; by rewrite H1|].
  split; [exact Hs2|]. split.
  - unfold step in Hs2. rewrite H1, response_rejected_resume_eq in Hs2.
    injection Hs2 as <-. simpl.
    by rewrite enter_response_rejected_eq, Hgo.
  - unfold healthCheck_of. rewrite H2. simpl.
    destruct dev; reflexivity.
Qed.

Lemma unauthorized_probe_signs_out_witness :
  exists w3,
    healthCheck_of false 0 (after unauthorized_probe (initial "/dashboard" ""))
    = Some (Fulfilled false, w3)
    /\ signOutCalls w3 = 1.
Proof.
  destruct (unauthorized_probe_signs_out
              (after (firstn 2 unauthorized_probe) (initial "/dashboard" ""))
              0 (mkSessionResult (Some (mkSession "expired"))) error401
              (Fulfilled tt) false)
    as (w1 & w2 & w3 & H1 & _ & _ & H2 & _ & H3).
  - reflexivity.
  - reflexivity.
  - vm_compute in H1. injection H1 as <-.
    vm_compute in H2. injection H2 as <-.
    exists w3. split; [exact H3|].
    vm_compute in H3. injection H3 as <-. reflexivity.
Defined.

(** X14. Identifiers are spliced into the request path as they are.  Different
    identifiers give different paths; the empty identifier turns
    [getIntegration] into the list request of [getIntegrations]; and an
    identifier of the form [status/<platform>] turns it into the status
    request of that platform. *)
Theorem resource_paths (a b : string) (platform : Platform) :
  (getIntegration_request a = getIntegration_request b <-> a = b)
  /\ getIntegration_request "" = getIntegrations_request
  /\ (getIntegration_request a = getIntegrationStatus_request platform
      <-> a = "status/" +:+ platform_name platform)
  /\ url (deleteIntegration_request a) = url (getIntegration_request a)
  /\ url (updateIntegration_request a b) = url (getIntegration_request a).
Proof.
  split; [|split; [reflexivity|split; [|by split]]].
  - split; [|by intros ->]. intros [= H]. exact H.
  - split.
    + destruct platform; intros [= H]; exact H.
    + intros ->. by destruct platform.
Qed.

Lemma resource_paths_witness :
  getIntegration_request "status/slack" = getIntegrationStatus_request slack.
Proof.
  destruct (resource_paths "status/slack" "" slack) as (_ & _ & H & _).
  by apply H.
Defined.

(** X15. The methods that return [response.data], and [deleteIntegration], add
    no error handling of their own: in any run, once the transport has
    rejected the request of task [i] with [e], a settled task makes these
    methods reject with [e] itself, while [healthCheck] turns the same
    outcome into [false]. *)
Theorem methods_surface_failure (w0 w : World) (evs1 evs2 : list Event)
    (i : nat) (e : JsError) (outcome : Settled Response) (dev : bool) :
  run (evs1 ++ TransportSettled i (Rejected e) :: evs2) w0 = Some w ->
  tasks w !! i = Some (Done outcome) ->
  returns_data outcome = Rejected e
  /\ deleteIntegration_result outcome = Rejected e
  /\ (healthCheck_result dev outcome w).1 = Fulfilled false.
Proof.
  intros Hrun Hdone. apply run_app in Hrun as (w1 & Hr1 & Hr2). simpl in Hr2.
  destruct (tasks w1 !! i) as [[|c| |]|] eqn:Hi; try discriminate.
  pose proof (enter_lookup_eq i e w1 _ Hi) as Hi2.
  assert (outcome = Rejected e) as ->.
  { destruct (run_rejects_with evs2 _ w i e Hr2) as [[p Hp]|Hd].
    - rewrite Hi2. destruct (starts_recovery _ _); eauto.
    - rewrite Hp in Hdone. discriminate.
    - rewrite Hd in Hdone. by injection Hdone as <-. }
  repeat split. by destruct dev.
Qed.

Lemma methods_surface_failure_witness :
  deleteIntegration_result (Rejected error401) = Rejected error401.
Proof.
  refine (proj1 (proj2 (methods_surface_failure (initial "/dashboard" "")
                   (after failed_signOut (initial "/dashboard" ""))
                   (firstn 2 one_failure)
                   [ SignOutSettled 0 (Rejected signOutError) ] 0 error401
                   (Rejected error401) false _ _))).
  - vm_compute. reflexivity.
  - reflexivity.
Defined.

(** ** Progress *)

Ltac solve_sublist :=
  repeat first
    [ apply sublist_nil_l | apply sublist_skip | apply sublist_cons ].

(** X16. A request waits for at most three promises and for nothing else: from
    any world, whatever state task [i] is in and whatever the session
    lookup, the transport and the sign-out answer, settling those of the
    three promises that the task comes to await settles the caller's
    promise.  No other request, and no timer, has to make a move. *)
Theorem request_settles (w : World) (i : nat) (t : Task)
    (sr : Settled SessionResult) (tr : Settled Response)
    (so : Settled unit) :
  tasks w !! i = Some t ->
  exists evs w' outcome,
    sublist evs
      [ SessionSettled i sr; TransportSettled i tr; SignOutSettled i so ]
    /\ run evs w = Some w'
    /\ tasks w' !! i = Some (Done outcome).
Proof.
  intros Hi.
  assert (Hsign : forall w1 evs0 error pathname,
    run evs0 w = Some w1 ->
    tasks w1 !! i = Some (AwaitSignOut error pathname) ->
    exists w' outcome,
      run (evs0 ++ [SignOutSettled i so]) w = Some w'
      /\ tasks w' !! i = Some (Done outcome)).
  { intros w1 evs0 error pathname Hr H1.
    destruct (signOut_settles _ _ _ _ so H1) as (w2 & Hs & H2).
    exists w2, (Rejected error). split; [|exact H2].
    clear -Hr Hs. revert w Hr. induction evs0 as [|ev evs0 IH];
      intros w Hr; simpl in *.
    - injection Hr as ->. by rewrite Hs.
    - destruct (step ev w); [|discriminate]. by apply IH. }
  assert (Henter : forall w1 evs0 ev e,
    run evs0 w = Some w1 ->
    step ev w1 = Some (enter_response_rejected i e w1) ->
    is_Some (tasks w1 !! i) ->
    exists evs w' outcome,
      (evs = (evs0 ++ [ev])%list \/ evs = (evs0 ++ [ev; SignOutSettled i so])%list)
      /\ run evs w = Some w'
      /\ tasks w' !! i = Some (Done outcome)).
  { intros w1 evs0 ev e Hr Hs [old Hold].
    assert (Hr1 : run (evs0 ++ [ev]) w = Some (enter_response_rejected i e w1)).
    { clear -Hr Hs. revert w Hr. induction evs0 as [|ev0 evs0 IH];
        intros w Hr; simpl in *.
      - injection Hr as ->. by rewrite Hs.
      - destruct (step ev0 w); [|discriminate]. by apply IH. }
    pose proof (enter_lookup_eq i e w1 old Hold) as Hl.
    destruct (starts_recovery e w1).
    - destruct (Hsign _ _ _ _ Hr1 Hl) as (w' & o & Hr2 & Ho).
      exists ((evs0 ++ [ev]) ++ [SignOutSettled i so])%list, w', o.
      split; [right; by rewrite <- app_assoc|]. by split.
    - exists (evs0 ++ [ev])%list, (enter_response_rejected i e w1),
        (Rejected e). split; [by left|]. by split. }
  assert (Htransport : forall w1 evs0 config,
    run evs0 w = Some w1 ->
    tasks w1 !! i = Some (AwaitTransport config) ->
    exists evs w' outcome,
      (evs = (evs0 ++ [TransportSettled i tr])%list
       \/ evs = (evs0 ++ [TransportSettled i tr; SignOutSettled i so])%list)
      /\ run evs w = Some w'
      /\ tasks w' !! i = Some (Done outcome)).
  { intros w1 evs0 config Hr H1. destruct tr as [r|e].
    - exists (evs0 ++ [TransportSettled i (Fulfilled r)])%list,
        (set_task i (Done (Fulfilled (response_fulfilled r))) w1),
        (Fulfilled r).
      split; [by left|]. split; [|by eapply set_task_lookup_eq].
      clear -Hr H1. revert w Hr. induction evs0 as [|ev0 evs0 IH];
        intros w Hr; simpl in *.
      + injection Hr as ->. by rewrite H1.
      + destruct (step ev0 w); [|discriminate]. by apply IH.
    - apply (Henter w1 evs0 _ e Hr); [simpl; by rewrite H1|eauto]. }
  destruct t as [config|config|error pathname|outcome].
  - destruct sr as [r|e].
    + destruct (Htransport (transmit i (request_fulfilled config r) w)
                  [SessionSettled i (Fulfilled r)]
                  (request_fulfilled config r))
        as (evs & w' & o & Hevs & Hr & Ho).
      * simpl. by rewrite Hi.
      * simpl. apply list_lookup_insert_eq. by eapply lookup_lt_Some.
      * exists evs, w', o. split; [|by split].
        destruct Hevs as [-> | ->]; simpl; solve_sublist.
    + destruct (Henter w [] (SessionSettled i (Rejected e)) e)
        as (evs & w' & o & Hevs & Hr & Ho); [reflexivity| |eauto|].
      * simpl. by rewrite Hi.
      * exists evs, w', o. split; [|by split].
        destruct Hevs as [-> | ->]; simpl; solve_sublist.
  - destruct (Htransport w [] config eq_refl Hi)
      as (evs & w' & o & Hevs & Hr & Ho).
    exists evs, w', o. split; [|by split].
    destruct Hevs as [-> | ->]; simpl; solve_sublist.
  - destruct (Hsign w [] error pathname eq_refl Hi) as (w' & o & Hr & Ho).
    exists [SignOutSettled i so], w', o. split; [|by split].
    solve_sublist.
  - exists [], w, outcome. split; [solve_sublist|]. by split.
Qed.

Lemma request_settles_witness :
  exists evs w' outcome,
    sublist evs
      [ SessionSettled 0 (session_of "tok");
        TransportSettled 0 (Rejected error401);
        SignOutSettled 0 (Fulfilled tt) ]
    /\ run evs (after [Call healthCheck_request] (initial "/dashboard" ""))
       = Some w'
    /\ tasks w' !! 0 = Some (Done outcome).
Proof.
  exact (request_settles
           (after [Call healthCheck_request] (initial "/dashboard" "")) 0
           (AwaitGetSession healthCheck_request) (session_of "tok")
           (Rejected error401) (Fulfilled tt) eq_refl).
Defined.
